(** * Health Peek: client-side validation, API error handling, local history
      and the chat-analysis engine contract

    The development embeds the JavaScript front ends of the repository
    (the React web client under [mental-health-frontend] and the React
    Native client under [mental-health-app]) and proves the properties the
    specification states about them.  The analysis engine itself runs on
    the server and is not part of the JavaScript sources; where a property
    concerns the engine, its contract is modelled from the specification
    and the definition says so.

    Conventions.
    - A JavaScript string is the list of its UTF-16 code units
      ([jsstring := list N]); [length] is [String.prototype.length].
    - A text handled by the engine is the list of its Unicode code points.
    - [lit "abc"] is the string literal ['abc'].
    - Promises are modelled by their settlement: a call either resolves
      with a value or rejects with an error, and the environment (server,
      clock) is an explicit argument. *)

From Stdlib Require Import ZArith NArith QArith Lqa Ascii String List.
From Stdlib Require Import DecimalPos.
From stdpp Require Import base list gmap strings.

Set Warnings "-register-all".
Local Open Scope nat_scope.

(* ===================================================================== *)
(** ** Strings *)
(* ===================================================================== *)

Module Text.

Abbreviation ustring := (list N).

(** A string literal, one unit per character of the literal. *)
Definition lit (s : string) : ustring :=
  N_of_ascii <$> list_ascii_of_string s.

Definition inRange (lo hi c : N) : bool := ((lo <=? c) && (c <=? hi))%N.

(** [s.trimStart()] / [s.lstrip()] for a given white-space class. *)
Fixpoint trimStartWith (ws : N -> bool) (s : ustring) : ustring :=
  match s with
  | [] => []
  | c :: r => if ws c then trimStartWith ws r else s
  end.

(** [s.trimEnd()] / [s.rstrip()]. *)
Fixpoint trimEndWith (ws : N -> bool) (s : ustring) : ustring :=
  match s with
  | [] => []
  | c :: r =>
      match trimEndWith ws r with
      | [] => if ws c then [] else [c]
      | r' => c :: r'
      end
  end.

Definition trimWith (ws : N -> bool) (s : ustring) : ustring :=
  trimEndWith ws (trimStartWith ws s).

(** [s.startsWith(p)]. *)
Fixpoint startsWith (p s : ustring) : bool :=
  match p, s with
  | [], _ => true
  | _ :: _, [] => false
  | a :: p', b :: s' => (a =? b)%N && startsWith p' s'
  end.

(** [s.includes(p)]. *)
Fixpoint includes (p s : ustring) : bool :=
  startsWith p s ||
  match s with
  | [] => false
  | _ :: r => includes p r
  end.

Definition digit (d : N) : N := (48 + d)%N.

Fixpoint showUint (u : Decimal.uint) : ustring :=
  match u with
  | Decimal.Nil => []
  | Decimal.D0 r => digit 0 :: showUint r
  | Decimal.D1 r => digit 1 :: showUint r
  | Decimal.D2 r => digit 2 :: showUint r
  | Decimal.D3 r => digit 3 :: showUint r
  | Decimal.D4 r => digit 4 :: showUint r
  | Decimal.D5 r => digit 5 :: showUint r
  | Decimal.D6 r => digit 6 :: showUint r
  | Decimal.D7 r => digit 7 :: showUint r
  | Decimal.D8 r => digit 8 :: showUint r
  | Decimal.D9 r => digit 9 :: showUint r
  end.

(** Decimal rendering of an integer, as [String(n)] gives it for the
    integers below 10^21 in magnitude. *)
Definition showN (n : N) : ustring := showUint (N.to_uint n).

Definition showZ (z : Z) : ustring :=
  match z with
  | Z0 => [digit 0]
  | Zpos p => showN (Npos p)
  | Zneg p => 45%N :: showN (Npos p)
  end.

End Text.

(* ===================================================================== *)
(** ** JavaScript values *)
(* ===================================================================== *)

Module JS.
Import Text.

Abbreviation jsstring := (list N).

(** The ECMAScript WhiteSpace and LineTerminator code units, the class
    [String.prototype.trim] strips. *)
Definition isWhiteSpace (c : N) : bool :=
  inRange 9 13 c || (c =? 32)%N || (c =? 160)%N || (c =? 5760)%N
  || inRange 8192 8202 c || (c =? 8232)%N || (c =? 8233)%N
  || (c =? 8239)%N || (c =? 8287)%N || (c =? 12288)%N || (c =? 65279)%N.

Definition trim (s : jsstring) : jsstring := trimWith isWhiteSpace s.

(** Values that reach the clients as parsed JSON, plus [undefined].
    Numbers are restricted to integers: the clients only test them for
    truthiness and print them. *)
Inductive jsval :=
| JUndefined
| JNull
| JBool (b : bool)
| JNum (z : Z)
| JStr (s : jsstring)
| JArr (l : list jsval)
| JObj (m : gmap jsstring jsval).

(** ToBoolean. *)
Definition truthy (v : jsval) : bool :=
  match v with
  | JUndefined | JNull => false
  | JBool b => b
  | JNum z => negb (z =? 0)%Z
  | JStr s => negb (bool_decide (s = []))
  | JArr _ | JObj _ => true
  end.

(** [a || b]. *)
Definition or_else (a b : jsval) : jsval := if truthy a then a else b.

(** [typeof v === 'object'] (true of [null], arrays and objects). *)
Definition typeofObject (v : jsval) : bool :=
  match v with
  | JNull | JArr _ | JObj _ => true
  | _ => false
  end.

(** [v.k] for a key [k] that is no built-in property: [None] stands for
    the TypeError that reading a property of [null] or [undefined]
    raises. *)
Definition getProp (v : jsval) (k : jsstring) : option jsval :=
  match v with
  | JUndefined | JNull => None
  | JObj m => Some (default JUndefined (m !! k))
  | _ => Some JUndefined
  end.

(** [v?.k]. *)
Definition getPropOpt (v : jsval) (k : jsstring) : jsval :=
  default JUndefined (getProp v k).

(** ToString, as template literals and [new Error(v)] apply it. *)
Fixpoint toString (v : jsval) : jsstring :=
  match v with
  | JUndefined => lit "undefined"
  | JNull => lit "null"
  | JBool true => lit "true"
  | JBool false => lit "false"
  | JNum z => showZ z
  | JStr s => s
  | JArr l =>
      (fix join (l : list jsval) : jsstring :=
         match l with
         | [] => []
         | x :: r =>
             let sx := match x with
                       | JUndefined | JNull => []
                       | _ => toString x
                       end in
             match r with
             | [] => sx
             | _ :: _ => sx ++ lit "," ++ join r
             end
         end) l
  | JObj _ => lit "[object Object]"
  end.

(** An exception value: only its [message] is observed. *)
Record jserror := Error { message : jsstring }.

(** Settlement of an asynchronous call. *)
Inductive settled (A : Type) :=
| Resolved (a : A)
| Rejected (e : jserror).
Arguments Resolved {A} a.
Arguments Rejected {A} e.

End JS.

(* ===================================================================== *)
(** ** Web client: message validation and the analyze form *)
(* ===================================================================== *)

(** [mental-health-frontend/src/utils/helpers.js] *)
Module Helpers.
Import Text JS.

(** [message.trim().length > 0 && message.length <= 5000] *)
Definition validateMessage (message : jsstring) : bool :=
  (0 <? length (trim message)) && (length message <=? 5000).

End Helpers.

(** [mental-health-frontend/src/components/analysis/MessageAnalyzer.js] *)
Module MessageAnalyzer.
Import Text JS.

Record state := State {
  message : jsstring;
  isAnalyzing : bool;
  result : option jsval;
  error : option jsstring
}.

(** [useState] initial values. *)
Definition initial : state :=
  {| message := []; isAnalyzing := false; result := None; error := None |}.

(** Calls that leave the component. *)
Inductive effect :=
| AnalyzeMessage (message : jsstring)
| AddAnalysis (message : jsstring) (analysis : jsval)
| OnAnalysisComplete (analysis : jsval).

(** The [maxLength={5000}] attribute of the textarea: the longest value
    the field takes from the user, in code units. *)
Definition maxLength : nat := 5000.

(** Whether the textarea can hold [value] as typed or pasted input. *)
Definition fieldHolds (value : jsstring) : bool := length value <=? maxLength.

(** [disabled={!message.trim() || isAnalyzing}] on the submit button. *)
Definition submitDisabled (st : state) : bool :=
  negb (truthy (JStr (trim (message st)))) || isAnalyzing st.

Section Runtime.

(** The message of the TypeError the engine raises when the property
    [analysis_id] of [v], [null] or [undefined], is read. *)
Variable typeErrorMessage : jsval -> jsstring.

(** [addAnalysis] of the web [AnalysisContext] (its text is printed in
    [alldocumenation/ARCHITECTURE.md], lines 1860-1891), as the form
    awaits it.  It reads [analysisResult.analysis_id] first: on [null]
    and [undefined] the read raises a TypeError, which the catch block
    rethrows; on every other value it resolves. *)
Definition addAnalysis (analysisResult : jsval) : settled unit :=
  match getProp analysisResult (lit "analysis_id") with
  | Some _ => Resolved ()
  | None => Rejected (Error (typeErrorMessage analysisResult))
  end.

(** [handleAnalyze], with the settlement of [analyzeMessage] as [server];
    [notify] tells whether [onAnalysisComplete] was passed. *)
Definition handleAnalyze (notify : bool) (server : settled jsval) (st : state)
  : state * list effect :=
  if negb (truthy (JStr (trim (message st)))) then (st, [])
  else
    match server with
    | Resolved analysis =>
        match addAnalysis analysis with
        | Resolved _ =>
            ({| message := []; isAnalyzing := false;
                result := Some analysis; error := None |},
             [AnalyzeMessage (message st); AddAnalysis (message st) analysis]
             ++ (if notify then [OnAnalysisComplete analysis] else []))
        | Rejected err =>
            ({| message := message st; isAnalyzing := false;
                result := Some analysis; error := Some (JS.message err) |},
             [AnalyzeMessage (message st); AddAnalysis (message st) analysis])
        end
    | Rejected err =>
        ({| message := message st; isAnalyzing := false;
            result := result st; error := Some (JS.message err) |},
         [AnalyzeMessage (message st)])
    end.

End Runtime.

(** The idle form holding [m]. *)
Definition idleWith (m : jsstring) : state :=
  {| message := m; isAnalyzing := false; result := None; error := None |}.

(** The form can be submitted with [m]: the field holds [m], the button
    is enabled on the idle form and the handler issues the request
    whatever the server answers. *)
Definition canSubmit (m : jsstring) : Prop :=
  fieldHolds m = true
  /\ submitDisabled (idleWith m) = false
  /\ forall typeErrorMessage notify server,
       AnalyzeMessage m
         ∈ (handleAnalyze typeErrorMessage notify server (idleWith m)).2.

End MessageAnalyzer.

(* ===================================================================== *)
(** ** Mobile client: the chat import screen *)
(* ===================================================================== *)

(** [mental-health-app/src/screens/analysis/ChatImportScreen.js] *)
Module ChatImportScreen.
Import Text JS.

Record state := State {
  content : jsstring;
  formatType : jsstring;
  userName : jsstring;
  loading : bool;
  result : option jsval
}.

Definition initial : state :=
  {| content := []; formatType := lit "whatsapp"; userName := [];
     loading := false; result := None |}.

Inductive effect :=
| Alert (title text : jsstring)
| ImportChat (content formatType : jsstring) (currentUserName : jsval).

Section Runtime.

(** The message of the TypeError the engine raises when a property of
    [null] or [undefined] is read. *)
Variable typeErrorMessage : jsstring.

(** [err.message || 'Import failed'] *)
Definition failureText (err : jserror) : jsstring :=
  toString (or_else (JStr (message err)) (JStr (lit "Import failed"))).

(** [handleImport], with the settlement of [analysisService.importChat]
    as [server]. *)
Definition handleImport (server : settled jsval) (st : state)
  : state * list effect :=
  if negb (truthy (JStr (trim (content st))))
     || (length (trim (content st)) <? 10)
  then
    (st, [Alert (lit "Error")
                (lit "Please provide chat content (min 10 characters)")])
  else
    let call :=
      ImportChat (trim (content st)) (formatType st)
                 (or_else (JStr (trim (userName st))) JUndefined) in
    match server with
    | Resolved data =>
        let st' := {| content := content st; formatType := formatType st;
                      userName := userName st; loading := false;
                      result := Some data |} in
        match getProp data (lit "total_messages_analyzed") with
        | Some n =>
            (st', [call;
                   Alert (lit "Success")
                         (lit "Analyzed " ++ toString (or_else n (JNum 0))
                          ++ lit " messages!")])
        | None =>
            (st', [call;
                   Alert (lit "Error")
                         (failureText (Error typeErrorMessage))])
        end
    | Rejected err =>
        ({| content := content st; formatType := formatType st;
            userName := userName st; loading := false;
            result := result st |},
         [call; Alert (lit "Error") (failureText err)])
    end.

End Runtime.

Definition isImportChat (e : effect) : bool :=
  match e with ImportChat _ _ _ => true | Alert _ _ => false end.

Definition isErrorAlert (e : effect) : bool :=
  match e with
  | Alert title _ => bool_decide (title = lit "Error")
  | ImportChat _ _ _ => false
  end.

End ChatImportScreen.

(** The chat import form of the web client,
    [mental-health-frontend/src/components/analysis/AnalysisHistory.js]
    ([ChatImport.handleAnalyze]). *)
Module ChatImport.
Import Text JS.

Record state := State {
  chatContent : jsstring;
  formatType : jsstring;
  userName : jsstring;
  isAnalyzing : bool;
  analysis : option jsval;
  error : option jsstring
}.

Inductive effect :=
| ImportChat (content : jsstring) (format_type current_user_name : jsval)
| OnImportSuccess.

Definition orNull (s : jsstring) : jsval := or_else (JStr s) JNull.

(** [handleAnalyze]; [notify] tells whether [onImportSuccess] was passed. *)
Definition handleAnalyze (notify : bool) (server : settled jsval) (st : state)
  : state * list effect :=
  if negb (truthy (JStr (trim (chatContent st)))) then
    ({| chatContent := chatContent st; formatType := formatType st;
        userName := userName st; isAnalyzing := isAnalyzing st;
        analysis := analysis st;
        error := Some (lit "Please provide chat content") |}, [])
  else
    let call := ImportChat (chatContent st) (orNull (formatType st))
                           (orNull (trim (userName st))) in
    match server with
    | Resolved r =>
        ({| chatContent := chatContent st; formatType := formatType st;
            userName := userName st; isAnalyzing := false;
            analysis := Some r; error := None |},
         call :: (if notify then [OnImportSuccess] else []))
    | Rejected err =>
        ({| chatContent := chatContent st; formatType := formatType st;
            userName := userName st; isAnalyzing := false;
            analysis := None;
            error := Some (toString (or_else (JStr (message err))
                                      (JStr (lit "Failed to analyze chat")))) |},
         [call])
    end.

End ChatImport.

(* ===================================================================== *)
(** ** HTTP clients *)
(* ===================================================================== *)

Module Http.
Import Text JS.

(** What the clients read of a [fetch] response.  [bodyJson] is the body
    parsed as JSON, [None] when the body is no JSON text. *)
Record response := Response {
  status : N;
  statusText : jsstring;
  contentType : option jsstring;
  bodyText : jsstring;
  bodyJson : option jsval
}.

(** [response.ok] *)
Definition ok (r : response) : bool := inRange 200 299 (status r).

(** Messages of the exceptions the JavaScript engine itself raises. *)
Record engine := Engine {
  typeErrorMessage : jsstring;
  syntaxErrorMessage : jsstring
}.

End Http.

(** [mental-health-frontend/src/services/base.js] *)
Module WebApi.
Import Text JS Http.

Inductive effect :=
| RemoveItem (key : jsstring)
| Redirect (href : jsstring).

(** The 401 branch: the stored session is cleared and the browser sent to
    the login page unless it is there already. *)
Definition onUnauthorized (pathname : jsstring) : list effect :=
  [RemoveItem (lit "authToken"); RemoveItem (lit "user")]
  ++ (if negb (includes (lit "/login") pathname)
      then [Redirect (lit "/login")] else []).

(** [typeof result === 'object' ? result.detail || result.message : result];
    [None] is the TypeError of [null.detail]. *)
Definition errorMessage (result : jsval) : option jsval :=
  if typeofObject result then
    detail ← getProp result (lit "detail");
    msg ← getProp result (lit "message");
    Some (or_else detail msg)
  else Some result.

(** [ApiService.request] from the settlement of [fetch] on: the effects
    on storage and location, then the value returned or the error thrown
    (the [catch] block logs and rethrows). *)
Definition request (eng : engine) (pathname : jsstring)
    (fetched : settled response) : list effect * settled jsval :=
  match fetched with
  | Rejected e => ([], Rejected e)
  | Resolved r =>
      let parsed :=
        match contentType r with
        | Some ct =>
            if includes (lit "application/json") ct
            then bodyJson r
            else Some (JStr (bodyText r))
        | None => Some (JStr (bodyText r))
        end in
      match parsed with
      | None => ([], Rejected (Error (syntaxErrorMessage eng)))
      | Some result =>
          if negb (ok r) then
            let effects :=
              if (status r =? 401)%N then onUnauthorized pathname else [] in
            match errorMessage result with
            | None => (effects, Rejected (Error (typeErrorMessage eng)))
            | Some text =>
                (effects,
                 Rejected (Error (lit "HTTP " ++ showN (status r) ++ lit ": "
                                  ++ toString text)))
            end
          else ([], Resolved result)
      end
  end.

End WebApi.

(** [mental-health-app/src/services/api.js] *)
Module MobileApi.
Import Text JS Http.

Inductive effect :=
| MultiRemove (keys : list jsstring).

(** What [request] returns: parsed data, or the response itself for a
    binary download. *)
Inductive result :=
| Data (data : jsval)
| Raw (r : response).

Section Config.

(** [CONFIG.TOKEN_KEY] and [CONFIG.USER_KEY]. *)
Variables TOKEN_KEY USER_KEY : jsstring.

(** The [catch] block of [request]: what is thrown for a caught [error]. *)
Definition rethrow (error : jserror) : jserror :=
  if bool_decide (message error = lit "UNAUTHORIZED") then error
  else if startsWith (lit "HTTP") (message error) then error
  else Error (lit "Network error: " ++ message error).

(** [data?.detail || data?.message || `HTTP ${response.status}`] *)
Definition failureMessage (r : response) (data : jsval) : jsval :=
  or_else (or_else (getPropOpt data (lit "detail"))
                   (getPropOpt data (lit "message")))
          (JStr (lit "HTTP " ++ showN (status r))).

(** [ApiService.request] from the settlement of [fetch] on. *)
Definition request (eng : engine) (fetched : settled response)
  : list effect * settled result :=
  match fetched with
  | Rejected e => ([], Rejected (rethrow e))
  | Resolved r =>
      if (status r =? 401)%N then
        ([MultiRemove [TOKEN_KEY; USER_KEY]],
         Rejected (rethrow (Error (lit "UNAUTHORIZED"))))
      else
        let ct := default [] (contentType r) in
        if includes (lit "application/pdf") ct
           || includes (lit "application/octet-stream") ct
        then
          if negb (ok r) then
            ([], Rejected (rethrow (Error (lit "HTTP " ++ showN (status r)
                                          ++ lit ": " ++ statusText r))))
          else ([], Resolved (Raw r))
        else
          let parsed :=
            if includes (lit "application/json") ct then bodyJson r
            else
              match bodyJson r with
              | Some data => Some data
              | None =>
                  Some (JObj {[ lit "message" := JStr (bodyText r) ]})
              end in
          match parsed with
          | None => ([], Rejected (rethrow (Error (syntaxErrorMessage eng))))
          | Some data =>
              if negb (ok r) then
                ([], Rejected (rethrow
                       (Error (toString (failureMessage r data)))))
              else ([], Resolved (Data data))
          end
  end.

End Config.

End MobileApi.

(* ===================================================================== *)
(** ** Web client: the sentiment distribution of the dashboard *)
(* ===================================================================== *)

(** [mental-health-frontend/src/components/dashboard/DashboardStats.js] *)
Module DashboardStats.
Import Text JS.

(** [stats.sentimentDistribution] as [Object.entries] lists it: sentiment
    name and message count. *)
Abbreviation distribution := (list (jsstring * Z)).

(** [Object.values(d).reduce((a, b) => a + b, 0)] *)
Definition total (d : distribution) : Z :=
  foldl (fun a b => a + b)%Z 0%Z (snd <$> d).

(** [total > 0 ? (count / total) * 100 : 0] *)
Definition percentage (total count : Z) : Q :=
  if (0 <? total)%Z then (inject_Z count / inject_Z total) * 100 else 0.

(** One bar per entry: name, count and percentage. *)
Definition sentimentBars (d : distribution) : list (jsstring * Z * Q) :=
  (fun '(sentiment, count) => (sentiment, count, percentage (total d) count))
    <$> d.

End DashboardStats.

(** [mental-health-app/src/screens/dashboard/DashboardScreen.js] *)
Module DashboardScreen.

(** [total > 0 ? (count / total) * 100 : 0] *)
Definition pct (total count : Z) : Q :=
  if (0 <? total)%Z then (inject_Z count / inject_Z total) * 100 else 0.

End DashboardScreen.

(* ===================================================================== *)
(** ** Mobile client: the analysis history context *)
(* ===================================================================== *)

(** [mental-health-app/src/context/AnalysisContext.js] *)
Module AnalysisContext.
Import Text JS.

(** Analysis ids are JSON scalars (the API sends an opaque id string), on
    which [===] is equality of values. *)
Inductive scalar :=
| SUndefined
| SNull
| SBool (b : bool)
| SNum (z : Z)
| SStr (s : jsstring).

#[global] Instance scalar_eq_dec : EqDecision scalar.
Proof. solve_decision. Defined.

Definition scalarTruthy (v : scalar) : bool :=
  match v with
  | SUndefined | SNull => false
  | SBool b => b
  | SNum z => negb (z =? 0)%Z
  | SStr s => negb (bool_decide (s = []))
  end.

(** The fields [addAnalysis] reads of the analysis the API returned. *)
Record result := Result {
  r_analysis_id : scalar;
  r_sentiment : jsval;
  r_confidence : jsval;
  r_emotions : jsval;
  r_emoji_analysis : jsval;
  r_timestamp : jsval
}.

Record entry := Entry {
  analysis_id : scalar;
  message : jsstring;
  sentiment : jsval;
  confidence : jsval;
  emotions : jsval;
  emoji_analysis : jsval;
  timestamp : jsval
}.

(** The clock at the time of a call: [Date.now()] and
    [new Date().toISOString()]. *)
Record clock := Clock {
  dateNow : Z;
  isoNow : jsstring
}.

Record state := State {
  analysisHistory : list entry;
  isLoading : bool;
  error : option jsstring
}.

(** [useState] initial values. *)
Definition initial : state :=
  {| analysisHistory := []; isLoading := false; error := None |}.

Definition newEntry (clk : clock) (message : jsstring) (r : result) : entry :=
  {| analysis_id := if scalarTruthy (r_analysis_id r) then r_analysis_id r
                    else SStr (showZ (dateNow clk));
     message := message;
     sentiment := r_sentiment r;
     confidence := r_confidence r;
     emotions := r_emotions r;
     emoji_analysis := r_emoji_analysis r;
     timestamp := or_else (r_timestamp r) (JStr (isoNow clk)) |}.

(** The updater [addAnalysis] passes to [setAnalysisHistory]. *)
Definition addEntry (e : entry) (prev : list entry) : list entry :=
  let isDuplicate :=
    existsb (fun item => bool_decide (analysis_id item = analysis_id e)) prev in
  if isDuplicate then prev
  else
    let updated := e :: prev in
    take 100 updated.

Definition addAnalysis (clk : clock) (message : jsstring) (r : result)
    (st : state) : state :=
  {| analysisHistory := addEntry (newEntry clk message r) (analysisHistory st);
     isLoading := isLoading st;
     error := error st |}.

(** [removeAnalysis], with the settlement of [analysisService.deleteAnalysis]
    as [server]: the new state, and whether the call resolves or rethrows. *)
Definition removeAnalysis (server : settled jsval) (analysisId : scalar)
    (st : state) : state * settled unit :=
  match server with
  | Resolved _ =>
      ({| analysisHistory :=
            List.filter (fun a => negb (bool_decide (analysis_id a = analysisId)))
                        (analysisHistory st);
          isLoading := isLoading st;
          error := error st |},
       Resolved ())
  | Rejected err =>
      ({| analysisHistory := analysisHistory st;
          isLoading := isLoading st;
          error := Some (JS.message err) |},
       Rejected err)
  end.

(** [clearHistory] *)
Definition clearHistory (st : state) : state :=
  {| analysisHistory := []; isLoading := isLoading st; error := error st |}.

(** One [addAnalysis] call: the clock it runs at and its arguments. *)
Record call := Call {
  c_clock : clock;
  c_message : jsstring;
  c_result : result
}.

Definition callEntry (c : call) : entry :=
  newEntry (c_clock c) (c_message c) (c_result c).

(** The state after a sequence of [addAnalysis] calls, first call first. *)
Definition run (calls : list call) (st : state) : state :=
  foldl (fun s c => addAnalysis (c_clock c) (c_message c) (c_result c) s)
        st calls.

End AnalysisContext.

(* ===================================================================== *)
(** ** The chat-analysis engine *)
(* ===================================================================== *)

(** The engine runs on the server; the JavaScript sources only call it.
    Its definitions below follow the specification (sections 3 and 4). *)
Module Engine.
Import Text.

Inductive Label := positive | negative | neutral.
Inductive Severity := low | medium | high.
Inductive Role := self | other.
Inductive Health := healthy | moderate | concerning.
Inductive Platform := whatsapp | telegram | discord | imessage | generic.

#[global] Instance Label_eq_dec : EqDecision Label.
Proof. solve_decision. Defined.
#[global] Instance Severity_eq_dec : EqDecision Severity.
Proof. solve_decision. Defined.
#[global] Instance Role_eq_dec : EqDecision Role.
Proof. solve_decision. Defined.
#[global] Instance Health_eq_dec : EqDecision Health.
Proof. solve_decision. Defined.

(** Modelled from the spec: the canonical message of section 3 (the parser
    that produces it is not in the JavaScript sources). *)
Record Message := mkMessage {
  timestamp : option Z;
  sender : ustring;
  text : ustring;
  platform : Platform;
  isMedia : bool
}.

(** *** Text normalisation *)

(** Modelled from the spec: the white space that "whitespace-trimmed"
    (section 3) strips, taken as the Unicode White_Space code points. *)
Definition isSpace (c : N) : bool :=
  inRange 9 13 c || (c =? 32)%N || (c =? 133)%N || (c =? 160)%N
  || (c =? 5760)%N || inRange 8192 8202 c || (c =? 8232)%N
  || (c =? 8233)%N || (c =? 8239)%N || (c =? 8287)%N || (c =? 12288)%N.

(** Modelled from the spec: the case folding behind "case-insensitive"
    (section 3), on the basic Latin letters. *)
Definition lower (c : N) : N := if inRange 65 90 c then (c + 32)%N else c.

(** Modelled from the spec: "case-insensitive, whitespace-trimmed"
    comparison (section 3) and [normalise] of the filler test (section
    4.3); the engine's own normalisation routine is not in the sources. *)
Definition normalise (s : ustring) : ustring :=
  lower <$> trimWith isSpace s.

(** *** Emoji analyzer (section 4.2) *)

Record EmojiAnalysis := mkEmojiAnalysis {
  ea_label : Label;
  ea_confidence : Q;
  ea_hasEmojis : bool
}.

(** Modelled from the spec: membership in the emoji set of the analyzer,
    given by the pictographic blocks (the engine's table is not in the
    sources). *)
Definition isEmoji (c : N) : bool :=
  inRange 0x1F000 0x1FAFF c || inRange 0x2600 0x27BF c
  || inRange 0x2300 0x23FF c || inRange 0x2B00 0x2BFF c
  || inRange 0x2190 0x21FF c || (c =? 0x3030)%N || (c =? 0x303D)%N
  || (c =? 0x3297)%N || (c =? 0x3299)%N || (c =? 0x203C)%N || (c =? 0x2049)%N.

Definition ZWJ : N := 0x200D.

(** Modelled from the spec: emoji extraction of section 4.2, which keeps
    the leading emoji of every sequence; an emoji joined to its
    predecessor by a zero-width joiner is part of that sequence. *)
Fixpoint emojiHeads (joined : bool) (t : ustring) : ustring :=
  match t with
  | [] => []
  | c :: r =>
      if (c =? ZWJ)%N then emojiHeads true r
      else if isEmoji c then
        if joined then emojiHeads false r else c :: emojiHeads false r
      else emojiHeads false r
  end.

Section Scoring.

(** The polarity table: weight and sign of every recognised emoji, 0 for
    the others. *)
Variable polarity : N -> Z.

(** Fillers beyond the ones the specification names. *)
Variable extraFillers : list ustring.

(** The emotion scores a classifier attaches to its result. *)
Variable EmotionMap : Type.

Record ClassifierResult := mkClassifierResult {
  cr_label : Label;
  cr_confidence : Q;
  cr_emotions : EmotionMap
}.

Record SentimentResult := mkSentimentResult {
  label : Label;
  confidence : Q;
  emotions : option EmotionMap;
  emojiAnalysis : option EmojiAnalysis
}.

(** Phases 2 to 9 of the scorer, from the text, its emoji analysis and
    the classifier hint.  The word lists they consult are not fixed by the
    specification (section 9, open questions). *)
Variable lexicalPhases :
  ustring -> EmojiAnalysis -> option ClassifierResult -> SentimentResult.

(** The optional classifier adapter; [None] when it is unavailable. *)
Variable classifier : ustring -> option ClassifierResult.

(** Rounding of a real to the float that stores it. *)
Variable rnd : Q -> Q.

Definition Qmin (a b : Q) : Q := if Qle_bool a b then a else b.

(** Modelled from the spec: [Analyze] of section 4.2, restricted to the
    fields a [SentimentResult] carries. *)
Definition Analyze (t : ustring) : EmojiAnalysis :=
  let heads := emojiHeads false t in
  let count := length heads in
  let sum := foldr (fun c acc => polarity c + acc)%Z 0%Z heads in
  {| ea_label := if (0 <? sum)%Z then positive
                 else if (sum <? 0)%Z then negative else neutral;
     ea_confidence :=
       if (count =? 0)%nat then 0
       else Qmin 1 (inject_Z (Z.abs sum)
                    / inject_Z (Z.max 3 (Z.of_nat count)));
     ea_hasEmojis := negb (count =? 0)%nat |}.

(** Modelled from the spec: the filler set of section 4.3, step 1. *)
Definition fillerSet : list ustring :=
  [lit "ok"; lit "yeah"; lit "hmm"; lit "lol"] ++ extraFillers.

Definition isFiller (t : ustring) : bool :=
  bool_decide (normalise t ∈ fillerSet).

(** Modelled from the spec: [Score] of section 4.3.  Step 1 returns at
    once on a filler without emoji; the remaining phases are
    [lexicalPhases]. *)
Definition Score (t : ustring) (hint : option ClassifierResult)
  : SentimentResult :=
  let e := Analyze t in
  if isFiller t && negb (ea_hasEmojis e) then
    {| label := neutral; confidence := 0.55; emotions := None;
       emojiAnalysis := Some {| ea_label := neutral; ea_confidence := 0;
                                ea_hasEmojis := false |} |}
  else lexicalPhases t e hint.

(** Modelled from the spec: the facade entry point of section 4.6, which
    calls the emoji analyzer and the scorer only. *)
Definition AnalyzeMessage (t : ustring) : SentimentResult := Score t None.

(** *** Sentiment rollup (section 4.4) *)

Record Ratios := mkRatios {
  positiveRatio : Q;
  neutralRatio : Q;
  negativeRatio : Q
}.

(** Modelled from the spec: the messages of [p] the aggregator scores,
    the non-media ones (section 4.4). *)
Definition scoredOf (p : ustring) (msgs : list Message) : list Message :=
  List.filter (fun m => negb (isMedia m) && bool_decide (sender m = p)) msgs.

(** Modelled from the spec: the label the scorer gives a message when the
    aggregator invokes it (section 4.4). *)
Definition labelOf (m : Message) : Label :=
  label (Score (text m) (classifier (text m))).

(** Modelled from the spec: the count of the messages labelled [l]. *)
Definition countLabel (l : Label) (ms : list Message) : nat :=
  length (List.filter (fun m => bool_decide (labelOf m = l)) ms).

(** Modelled from the spec: a ratio of the rollup, [count / total] as the
    float that stores it, and 0 on an empty denominator (section 4.4). *)
Definition ratio (count total : nat) : Q :=
  if (total =? 0)%nat then 0
  else rnd (inject_Z (Z.of_nat count) / inject_Z (Z.of_nat total)).

(** Modelled from the spec: the per-participant sentiment rollup,
    "counts / participantTotal" over the scored messages. *)
Definition participantSentiment (p : ustring) (msgs : list Message) : Ratios :=
  let scored := scoredOf p msgs in
  let total := length scored in
  {| positiveRatio := ratio (countLabel positive scored) total;
     neutralRatio := ratio (countLabel neutral scored) total;
     negativeRatio := ratio (countLabel negative scored) total |}.

End Scoring.

(** *** Participants (sections 3 and 4.4) *)

Record Participant := mkParticipant {
  name : ustring;
  role : Role;
  messageCount : nat;
  averageLength : Q
}.

(** Modelled from the spec: the role rule of section 3. *)
Definition assignRole (selfName : option ustring) (name : ustring) : Role :=
  match selfName with
  | Some s => if bool_decide (normalise s = normalise name) then self else other
  | None => other
  end.

(** Modelled from the spec: the distinct senders of a conversation, from
    which the participants are derived (section 4.4). *)
Definition senders (msgs : list Message) : list ustring :=
  remove_dups (sender <$> msgs).

(** Modelled from the spec: the messages [p] sent. *)
Definition messagesOf (p : ustring) (msgs : list Message) : list Message :=
  List.filter (fun m => bool_decide (sender m = p)) msgs.

(** Modelled from the spec: the participant record of a sender
    (section 3): name, role, message count and average message length. *)
Definition participantOf (selfName : option ustring) (msgs : list Message)
    (p : ustring) : Participant :=
  let mine := messagesOf p msgs in
  {| name := p;
     role := assignRole selfName p;
     messageCount := length mine;
     averageLength :=
       inject_Z (Z.of_nat (foldr (fun m acc => length (text m) + acc) 0 mine))
       / inject_Z (Z.max 1 (Z.of_nat (length mine))) |}.

(** Modelled from the spec: [participants], the map from name to
    participant, "derived from distinct senders". *)
Definition participants (selfName : option ustring) (msgs : list Message)
  : gmap ustring Participant :=
  list_to_map ((fun p => (p, participantOf selfName msgs p)) <$> senders msgs).

(** *** Red flags and health (sections 3 and 4.5) *)

Record Finding := mkFinding {
  f_type : ustring;
  severity : Severity;
  description : ustring;
  suggestion : ustring
}.

Record RedFlags := mkRedFlags {
  redFlags : list Finding;
  warnings : list Finding;
  totalRedFlags : nat;
  totalWarnings : nat;
  overallHealth : Health
}.

(** Modelled from the spec: the health derivation of section 3. *)
Definition deriveHealth (redFlags warnings : list Finding) : Health :=
  if (2 <=? length redFlags)
     || existsb (fun f => bool_decide (severity f = high)) redFlags
  then concerning
  else if (1 <=? length redFlags) || (2 <=? length warnings)
  then moderate
  else healthy.

(** Modelled from the spec: the output of the red-flag detector for the
    findings its rules emitted. *)
Definition report (redFlags warnings : list Finding) : RedFlags :=
  {| redFlags := redFlags;
     warnings := warnings;
     totalRedFlags := length redFlags;
     totalWarnings := length warnings;
     overallHealth := deriveHealth redFlags warnings |}.

(** Modelled from the spec: the three values of [overallHealth], as the
    clients read them in [overall_health]. *)
Definition healthName (h : Health) : ustring :=
  match h with
  | healthy => lit "healthy"
  | moderate => lit "moderate"
  | concerning => lit "concerning"
  end.

End Engine.

(** The chat analysis view of the web client, the part of
    [mental-health-frontend/src/components/analysis/AnalysisHistory.js]
    that renders participants and red flags. *)
Module ChatImportView.
Import Text JS.

Inductive badge := BadgeYou | BadgeOther.

(** [p.role === 'you' ? '👤 You' : '👤 Other'] *)
Definition participantBadge (role : jsval) : badge :=
  match role with
  | JStr s => if bool_decide (s = lit "you") then BadgeYou else BadgeOther
  | _ => BadgeOther
  end.

(** [v === 0] *)
Definition isZero (v : jsval) : bool :=
  match v with
  | JNum z => (z =? 0)%Z
  | _ => false
  end.

(** [total_red_flags === 0 && total_warnings === 0]: whether the
    "no significant issues" panel is shown. *)
Definition noFlagsShown (total_red_flags total_warnings : jsval) : bool :=
  isZero total_red_flags && isZero total_warnings.

End ChatImportView.

(* ===================================================================== *)
(** ** Web client: text, time and address helpers *)
(* ===================================================================== *)

(** The text utilities of [mental-health-frontend/src/utils/helpers.js]. *)
Module TextHelpers.
Import Text JS.

(** [text.substring(0, n)] for an integer [n]: a negative [n] counts
    as 0. *)
Definition substring0 (text : jsstring) (n : Z) : jsstring :=
  take (Z.to_nat n) text.

(** [truncateText(text, maxLength)]:
    [text.length <= maxLength ? text
     : text.substring(0, maxLength).trim() + '...'] *)
Definition truncateText (text : jsstring) (maxLength : Z) : jsstring :=
  if (Z.of_nat (length text) <=? maxLength)%Z then text
  else trim (substring0 text maxLength) ++ lit "...".

(** The class [[<>]]. *)
Definition isAngle (c : N) : bool := (c =? 60)%N || (c =? 62)%N.

(** [text.replace(/[<>]/g, '').trim()] *)
Definition sanitizeText (text : jsstring) : jsstring :=
  trim (List.filter (fun c => negb (isAngle c)) text).

(** [password.length >= 6] *)
Definition validatePassword (password : jsstring) : bool :=
  6 <=? length password.

End TextHelpers.

(** Regular expressions over code units, as far as the patterns of the
    clients need them, with matching by derivatives. *)
Module Regex.

Inductive regex :=
| Void
| Eps
| Class (p : N -> bool)
| Seq (r1 r2 : regex)
| Alt (r1 r2 : regex)
| Star (r : regex).

(** [r+] *)
Definition Plus (r : regex) : regex := Seq r (Star r).

(** A literal code unit. *)
Definition Char (c : N) : regex := Class (fun x => (x =? c)%N).

Fixpoint nullable (r : regex) : bool :=
  match r with
  | Void => false
  | Eps => true
  | Class _ => false
  | Seq r1 r2 => nullable r1 && nullable r2
  | Alt r1 r2 => nullable r1 || nullable r2
  | Star _ => true
  end.

Fixpoint deriv (c : N) (r : regex) : regex :=
  match r with
  | Void => Void
  | Eps => Void
  | Class p => if p c then Eps else Void
  | Seq r1 r2 =>
      if nullable r1
      then Alt (Seq (deriv c r1) r2) (deriv c r2)
      else Seq (deriv c r1) r2
  | Alt r1 r2 => Alt (deriv c r1) (deriv c r2)
  | Star r1 => Seq (deriv c r1) (Star r1)
  end.

(** [/^r$/.test(s)] *)
Definition test (r : regex) (s : list N) : bool :=
  nullable (foldl (fun r c => deriv c r) r s).

End Regex.

(** The validators of [mental-health-frontend/src/utils/helpers.js]. *)
Module Validators.
Import Text JS Regex.

(** The class [[^\s@]]. *)
Definition addressUnit (c : N) : bool :=
  negb (isWhiteSpace c || (c =? 64)%N).

(** [/^[^\s@]+@[^\s@]+\.[^\s@]+$/] *)
Definition emailRegex : regex :=
  Seq (Plus (Class addressUnit))
      (Seq (Char 64)
           (Seq (Plus (Class addressUnit))
                (Seq (Char 46) (Plus (Class addressUnit))))).

(** [emailRegex.test(email)] *)
Definition validateEmail (email : jsstring) : bool := test emailRegex email.

End Validators.

(** [formatTimeAgo] of [mental-health-frontend/src/utils/helpers.js]. *)
Module TimeHelpers.
Import Text JS.

(** [formatTimeAgo(date)] at the clock [now] (milliseconds).  [date] is
    the time value of [new Date(date)], [None] for an invalid date, on
    which every comparison fails; [formatted] is [formatDate(date)], which
    depends on the locale. *)
Definition formatTimeAgo (now : Z) (date : option Z) (formatted : jsstring)
  : jsstring :=
  match date with
  | None => formatted
  | Some then_ =>
      let diffInSeconds := ((now - then_) / 1000)%Z in
      if (diffInSeconds <? 60)%Z then lit "Just now"
      else if (diffInSeconds <? 3600)%Z
      then showZ (diffInSeconds / 60) ++ lit " minutes ago"
      else if (diffInSeconds <? 86400)%Z
      then showZ (diffInSeconds / 3600) ++ lit " hours ago"
      else if (diffInSeconds <? 604800)%Z
      then showZ (diffInSeconds / 86400) ++ lit " days ago"
      else formatted
  end.

End TimeHelpers.

(* ===================================================================== *)
(** ** Web client: the list of recent analyses *)
(* ===================================================================== *)

(** The [AnalysisHistory] component of
    [mental-health-frontend/src/components/analysis/AnalysisHistory.js]. *)
Module AnalysisHistoryView.

(** [l.slice(0, end)] for an integer [end]: a negative [end] counts from
    the end of the list. *)
Definition slice0 {A} (l : list A) (end_ : Z) : list A :=
  if (end_ <? 0)%Z then take (length l - Z.to_nat (- end_)) l
  else take (Z.to_nat end_) l.

(** [Array.isArray(analysisHistory) && analysisHistory.length > 0] *)
Definition hasHistory {A} (analysisHistory : list A) : bool :=
  0 <? length analysisHistory.

(** [showAllItems ? analysisHistory
     : (analysisHistory || []).slice(0, maxItems)] *)
Definition displayHistory {A} (showAllItems : bool) (maxItems : Z)
    (analysisHistory : list A) : list A :=
  if showAllItems then analysisHistory else slice0 analysisHistory maxItems.

(** Whether the list of entries is rendered:
    [!isLoading && hasHistory]. *)
Definition listShown {A} (isLoading : bool) (analysisHistory : list A) : bool :=
  negb isLoading && hasHistory analysisHistory.

(** Whether the footer with the "Show More" / "Show Less" button is
    rendered:
    [!isLoading && hasHistory && analysisHistory.length > maxItems]. *)
Definition footerShown {A} (isLoading : bool) (maxItems : Z)
    (analysisHistory : list A) : bool :=
  negb isLoading && hasHistory analysisHistory
  && (maxItems <? Z.of_nat (length analysisHistory))%Z.

End AnalysisHistoryView.

(* ===================================================================== *)
(** ** Mobile client: the analyze and history screens *)
(* ===================================================================== *)

(** The analyze screen of the mobile client ([AnalyzeScreen],
    [src/unnamed/part_003]). *)
Module AnalyzeScreen.
Import Text JS.

Record state := State {
  message : jsstring;
  result : option jsval;
  loading : bool;
  error : option jsstring
}.

Inductive effect :=
| Alert (title text : jsstring)
| AnalyzeMessage (message : jsstring)
| AddAnalysis (message : jsstring) (data : jsval)
| CrisisAlert.

Section Runtime.

(** The message of the TypeError the engine raises when a property of
    [null] or [undefined] is read. *)
Variable typeErrorMessage : jsstring.

(** The crisis test on the analysis,
    [data.sentiment?.toLowerCase() === 'negative' && data.confidence > 0.7],
    a comparison of floats; it rejects when [sentiment] has no
    [toLowerCase]. *)
Variable crisis : jsval -> settled bool.

(** Whether [v] is [null] or [undefined]. *)
Definition nullish (v : jsval) : bool :=
  match v with
  | JUndefined | JNull => true
  | _ => false
  end.

(** [handleAnalyze], with the settlement of [analysisService.analyzeMessage]
    as [server]. *)
Definition handleAnalyze (server : settled jsval) (st : state)
  : state * list effect :=
  let trimmed := trim (message st) in
  if negb (truthy (JStr trimmed)) then
    (st, [Alert (lit "Empty Message")
                (lit "Please enter a message to analyze.")])
  else if 5000 <? length trimmed then
    (st, [Alert (lit "Too Long")
                (lit "Message must be under 5000 characters.")])
  else
    match server with
    | Resolved data =>
        if nullish data then
          ({| message := message st; result := Some data; loading := false;
              error := Some typeErrorMessage |},
           [AnalyzeMessage trimmed])
        else
          match crisis data with
          | Resolved alarm =>
              ({| message := message st; result := Some data;
                  loading := false; error := None |},
               [AnalyzeMessage trimmed; AddAnalysis trimmed data]
               ++ (if alarm then [CrisisAlert] else []))
          | Rejected err =>
              ({| message := message st; result := Some data;
                  loading := false; error := Some (JS.message err) |},
               [AnalyzeMessage trimmed; AddAnalysis trimmed data])
          end
    | Rejected err =>
        ({| message := message st; result := None; loading := false;
            error := Some (JS.message err) |},
         [AnalyzeMessage trimmed])
    end.

End Runtime.

End AnalyzeScreen.

(** The history screen of the mobile client ([AnalysisHistoryScreen],
    [src/unnamed/part_002]). *)
Module HistoryScreen.
Import Text JS AnalysisContext.

Inductive effect :=
| Alert (title text : jsstring).

(** [handleDelete], with the settlement of [analysisService.deleteAnalysis]
    as [server]: the context after it, the new [deleteTarget] and the
    alerts shown.  The error [removeAnalysis] throws again is caught
    here. *)
Definition handleDelete (server : settled jsval) (deleteTarget : scalar)
    (ctx : state) : state * scalar * list effect :=
  if negb (scalarTruthy deleteTarget) then (ctx, deleteTarget, [])
  else
    match removeAnalysis server deleteTarget ctx with
    | (ctx', Resolved _) => (ctx', SNull, [])
    | (ctx', Rejected _) =>
        (ctx', SNull,
         [Alert (lit "Error") (lit "Failed to delete analysis")])
    end.

(** [visible={!!deleteTarget}] on the confirmation dialog. *)
Definition dialogVisible (deleteTarget : scalar) : bool :=
  scalarTruthy deleteTarget.

End HistoryScreen.

(** [loadAnalysisHistory] of the analysis history context of the mobile
    client ([src/unnamed/part_005]). *)
Module HistoryLoad.
Import Text JS Http.

(** What a call leaves behind: the value given to [setAnalysisHistory]
    ([None] when it is not called), the [error] and [isLoading] of the
    context, and the value the call resolves with. *)
Record outcome := Outcome {
  stored : option jsval;
  error : option jsstring;
  isLoading : bool;
  returned : jsval
}.

(** [Array.isArray(data) ? data : data?.history || []] *)
Definition selectHistory (data : MobileApi.result) : jsval :=
  match data with
  | MobileApi.Data (JArr l) => JArr l
  | MobileApi.Data d => or_else (getPropOpt d (lit "history")) (JArr [])
  | MobileApi.Raw _ => JArr []
  end.

(** [loadAnalysisHistory], with the settlement of
    [analysisService.getAnalysisHistory] as [server]. *)
Definition loadAnalysisHistory (server : settled MobileApi.result) : outcome :=
  match server with
  | Resolved data =>
      {| stored := Some (selectHistory data); error := None;
         isLoading := false; returned := selectHistory data |}
  | Rejected err =>
      {| stored := None;
         error := if bool_decide (message err = lit "UNAUTHORIZED")
                  then None else Some (message err);
         isLoading := false; returned := JArr [] |}
  end.

End HistoryLoad.

(* ===================================================================== *)
(** * Properties *)
(* ===================================================================== *)

Module TextFacts.
Import Text.

Section Trim.
Variable ws : N -> bool.

Lemma trimStartWith_all (s : ustring) :
  Forall (fun c => ws c = true) (trimStartWith ws s)
  <-> Forall (fun c => ws c = true) s.
Proof.
  induction s as [|c r IH]; simpl; [done|].
  destruct (ws c) eqn:Hc.
  - rewrite IH. split; [by constructor|]. by inversion 1.
  - done.
Qed.

Lemma trimEndWith_nil (s : ustring) :
  trimEndWith ws s = [] <-> Forall (fun c => ws c = true) s.
Proof.
  induction s as [|c r IH]; simpl; [done|].
  destruct (trimEndWith ws r) as [|x r'] eqn:Hr.
  - destruct (ws c) eqn:Hc.
    + split; [|done]. intros _. constructor; [done|]. by apply IH.
    + split; [done|]. inversion 1; congruence.
  - split; [done|]. inversion 1 as [|? ? _ Hall]; subst.
    apply IH in Hall. done.
Qed.

Lemma trimWith_nil (s : ustring) :
  trimWith ws s = [] <-> Forall (fun c => ws c = true) s.
Proof. unfold trimWith. by rewrite trimEndWith_nil, trimStartWith_all. Qed.

Lemma trimWith_nonempty (s : ustring) :
  trimWith ws s <> [] <-> Exists (fun c => ws c = false) s.
Proof.
  rewrite trimWith_nil. induction s as [|c r IH].
  - split; [intros H; by destruct H | by inversion 1].
  - destruct (ws c) eqn:Hc.
    + split.
      * intros H. apply Exists_cons_tl, IH. intros Hr. apply H. by constructor.
      * inversion 1; subst; [congruence|]. inversion 1; subst. by apply IH.
    + split; [by left|]. intros _. inversion 1; congruence.
Qed.

Lemma trimStartWith_length (s : ustring) :
  length (trimStartWith ws s) <= length s.
Proof. induction s as [|c r IH]; simpl; [lia|]. destruct (ws c); simpl; lia. Qed.

Lemma trimEndWith_length (s : ustring) :
  length (trimEndWith ws s) <= length s.
Proof.
  induction s as [|c r IH]; simpl; [lia|].
  destruct (trimEndWith ws r); [destruct (ws c)|]; simpl in *; lia.
Qed.

Lemma trimWith_length (s : ustring) : length (trimWith ws s) <= length s.
Proof.
  unfold trimWith. etrans; [apply trimEndWith_length|apply trimStartWith_length].
Qed.

End Trim.

Lemma startsWith_spec (p s : ustring) :
  startsWith p s = true <-> p `prefix_of` s.
Proof.
  revert s. induction p as [|a p IH]; intros s; simpl.
  - split; [intros _; apply prefix_nil | done].
  - destruct s as [|b s].
    + split; [done|]. intros [k Hk]. done.
    + rewrite andb_true_iff, N.eqb_eq, IH. split.
      * intros [-> Hp]. by apply prefix_cons.
      * intros [k Hk]. simpl in Hk. injection Hk as -> ->.
        split; [done|]. by exists k.
Qed.

End TextFacts.

Module ValidationFacts.
Import Text JS TextFacts.

(** [m] contains a character that is no white space. *)
Definition hasText (m : jsstring) : Prop :=
  Exists (fun c => isWhiteSpace c = false) m.

(** The request bound of the analyze endpoint: some text, at most 5000
    characters. *)
Definition withinBound (m : jsstring) : Prop :=
  hasText m /\ length m <= 5000.

Lemma trim_truthy (m : jsstring) :
  truthy (JStr (trim m)) = true <-> hasText m.
Proof.
  unfold truthy, trim, hasText. rewrite negb_true_iff, bool_decide_eq_false.
  apply trimWith_nonempty.
Qed.

Lemma trim_length_pos (m : jsstring) :
  (0 <? length (trim m)) = true <-> hasText m.
Proof.
  rewrite Nat.ltb_lt. unfold trim, hasText.
  rewrite <- trimWith_nonempty. destruct (trimWith isWhiteSpace m); simpl.
  - split; [lia | done].
  - split; [done | lia].
Qed.

Lemma validateMessage_spec (m : jsstring) :
  Helpers.validateMessage m = true <-> withinBound m.
Proof.
  unfold Helpers.validateMessage, withinBound.
  by rewrite andb_true_iff, trim_length_pos, Nat.leb_le.
Qed.

Lemma canSubmit_spec (m : jsstring) :
  MessageAnalyzer.canSubmit m <-> withinBound m.
Proof.
  unfold MessageAnalyzer.canSubmit, MessageAnalyzer.submitDisabled,
    MessageAnalyzer.handleAnalyze, MessageAnalyzer.fieldHolds,
    MessageAnalyzer.maxLength, MessageAnalyzer.idleWith, withinBound.
  cbn [MessageAnalyzer.message MessageAnalyzer.isAnalyzing].
  rewrite Nat.leb_le, orb_false_r, negb_false_iff, trim_truthy. split.
  - intros (Hlen & Htext & _). done.
  - intros [Htext Hlen]. split_and!; [done..|].
    intros typeErrorMessage notify server. apply trim_truthy in Htext.
    rewrite Htext. cbn [negb].
    destruct server as [analysis|err]; [|apply list_elem_of_here].
    destruct (MessageAnalyzer.addAnalysis typeErrorMessage analysis);
      apply list_elem_of_here.
Qed.

Lemma hasText_nonempty (m : jsstring) : hasText m -> 1 <= length m.
Proof. destruct 1; simpl; lia. Qed.

(** C4. The web client accepts a message for single-message analysis
    ([validateMessage] returns true and the analyze form can be submitted
    with it) exactly when the message contains a character that is no
    white space and has at most 5000 characters (UTF-16 code units, as
    [String.prototype.length] and [maxLength] count them); an accepted
    message is within the 1..5000 bound of the analyze request. *)
Theorem validateMessage_accepts_iff (m : jsstring) :
  ((Helpers.validateMessage m = true /\ MessageAnalyzer.canSubmit m)
     <-> (hasText m /\ length m <= 5000))
  /\ (Helpers.validateMessage m = true <-> (hasText m /\ length m <= 5000))
  /\ (MessageAnalyzer.canSubmit m <-> (hasText m /\ length m <= 5000))
  /\ (Helpers.validateMessage m = true -> 1 <= length m <= 5000).
Proof.
  pose proof (validateMessage_spec m) as Hv.
  pose proof (canSubmit_spec m) as Hc.
  unfold withinBound in *. split_and!; [tauto..|].
  intros H. apply Hv in H as [Ht Hl]. split; [by apply hasText_nonempty|done].
Qed.

Lemma validateMessage_accepts_iff_witness :
  Helpers.validateMessage (lit "I feel great") = true
  /\ 1 <= length (lit "I feel great") <= 5000.
Proof.
  split; [reflexivity|].
  apply (validateMessage_accepts_iff (lit "I feel great")). reflexivity.
Defined.

(** White space alone is refused, and so is a message of 5001 characters. *)
Example validateMessage_blank :
  Helpers.validateMessage (lit "   ") = false.
Proof. reflexivity. Qed.

Example validateMessage_too_long :
  Helpers.validateMessage (replicate (5000 + 1) 97%N) = false.
Proof. vm_compute. reflexivity. Qed.

End ValidationFacts.

Module ChatImportFacts.
Import Text JS TextFacts.

Section Runtime.
Variable typeErrorMessage : jsstring.

Definition tooShortAlert : ChatImportScreen.effect :=
  ChatImportScreen.Alert (lit "Error")
    (lit "Please provide chat content (min 10 characters)").

Lemma handleImport_guard (st : ChatImportScreen.state) :
  length (trim (ChatImportScreen.content st)) < 10 ->
  negb (truthy (JStr (trim (ChatImportScreen.content st))))
  || (length (trim (ChatImportScreen.content st)) <? 10) = true.
Proof. intros H. apply orb_true_iff. right. by apply Nat.ltb_lt. Qed.

(** C5. On the mobile chat import screen, content that has fewer than 10
    characters after trimming is rejected with an error alert before
    anything else happens: [importChat] is not called, whatever the
    server would answer, and the screen state, hence the analysis it
    shows, is unchanged. *)
Theorem handleImport_rejects_short
    (server : settled jsval) (st : ChatImportScreen.state) :
  length (trim (ChatImportScreen.content st)) < 10 ->
  ChatImportScreen.handleImport typeErrorMessage server st
    = (st, [tooShortAlert])
  /\ Forall (fun e => ChatImportScreen.isImportChat e = false)
       (ChatImportScreen.handleImport typeErrorMessage server st).2
  /\ Exists (fun e => ChatImportScreen.isErrorAlert e = true)
       (ChatImportScreen.handleImport typeErrorMessage server st).2
  /\ ChatImportScreen.result
       (ChatImportScreen.handleImport typeErrorMessage server st).1
     = ChatImportScreen.result st.
Proof.
  intros Hshort. unfold ChatImportScreen.handleImport.
  rewrite (handleImport_guard st Hshort). simpl.
  split_and!; [done| |by left|done].
  by repeat constructor.
Qed.

(** Content of at least 10 characters after trimming does reach the
    server, trimmed. *)
Lemma handleImport_calls_server
    (server : settled jsval) (st : ChatImportScreen.state) :
  10 <= length (trim (ChatImportScreen.content st)) ->
  exists format user rest,
    (ChatImportScreen.handleImport typeErrorMessage server st).2
    = ChatImportScreen.ImportChat (trim (ChatImportScreen.content st))
        format user :: rest.
Proof.
  intros Hlong. unfold ChatImportScreen.handleImport.
  assert (trim (ChatImportScreen.content st) <> []) as Hne.
  { intros E. rewrite E in Hlong. simpl in Hlong. lia. }
  assert (negb (truthy (JStr (trim (ChatImportScreen.content st))))
          || (length (trim (ChatImportScreen.content st)) <? 10) = false)
    as ->.
  { apply orb_false_iff. split.
    - simpl. rewrite negb_involutive. by apply bool_decide_eq_false.
    - apply Nat.ltb_ge. lia. }
  destruct server as [data|err]; [|by eauto].
  destruct (getProp data _); by eauto.
Qed.

End Runtime.

Definition shortDraft : ChatImportScreen.state :=
  {| ChatImportScreen.content := lit "  hi Bob  ";
     ChatImportScreen.formatType := lit "whatsapp";
     ChatImportScreen.userName := [];
     ChatImportScreen.loading := false;
     ChatImportScreen.result := None |}.

Lemma handleImport_rejects_short_witness :
  ChatImportScreen.handleImport [] (Resolved JNull) shortDraft
  = (shortDraft, [tooShortAlert]).
Proof.
  apply (handleImport_rejects_short [] (Resolved JNull) shortDraft).
  vm_compute. lia.
Defined.

(** The chat import form of the web client checks for empty content
    only: shorter content is sent to the server as it is. *)
Example web_handleAnalyze_short_content :
  (ChatImport.handleAnalyze false (Rejected (Error (lit "HTTP 400: too short")))
     {| ChatImport.chatContent := lit "hi";
        ChatImport.formatType := [];
        ChatImport.userName := [];
        ChatImport.isAnalyzing := false;
        ChatImport.analysis := None;
        ChatImport.error := None |}).2
  = [ChatImport.ImportChat (lit "hi") JNull JNull].
Proof. reflexivity. Qed.

End ChatImportFacts.

Module HttpFacts.
Import Text JS Http TextFacts.

(** The text an error body carries: its [detail], or its [message] when
    there is no [detail]. *)
Definition carriedText (body : gmap jsstring jsval) : option jsstring :=
  match body !! lit "detail" with
  | Some (JStr d) => Some d
  | Some _ => None
  | None =>
      match body !! lit "message" with
      | Some (JStr s) => Some s
      | _ => None
      end
  end.

(** A response announced as JSON, and not as a binary download. *)
Definition announcesJson (r : response) : Prop :=
  exists ct, contentType r = Some ct
    /\ includes (lit "application/json") ct = true
    /\ includes (lit "application/pdf") ct = false
    /\ includes (lit "application/octet-stream") ct = false.

(** The error a client throws for a response, if it throws. *)
Definition thrown {A} (outcome : settled A) : option jserror :=
  match outcome with
  | Rejected e => Some e
  | Resolved _ => None
  end.

(** A client takes its error messages from the body: for every failed
    response whose JSON body is an object carrying a text, it throws an
    error whose message ends with that text. *)
Definition takesMessageFromBody (raise : response -> option jserror) : Prop :=
  forall r body text,
    ok r = false -> announcesJson r ->
    bodyJson r = Some (JObj body) -> carriedText body = Some text ->
    exists e, raise r = Some e /\ text `suffix_of` message e.

Definition webRaise (eng : engine) (pathname : jsstring) (r : response)
  : option jserror :=
  thrown (WebApi.request eng pathname (Resolved r)).2.

Definition mobileRaise (eng : engine) (tokenKey userKey : jsstring)
    (r : response) : option jserror :=
  thrown (MobileApi.request tokenKey userKey eng (Resolved r)).2.

Definition v8 : engine :=
  {| typeErrorMessage := lit "Cannot read properties of null";
     syntaxErrorMessage := lit "Unexpected token" |}.

Definition quoted (s : jsstring) : jsstring := [34%N] ++ s ++ [34%N].

(** A 401 answer with an error body. *)
Definition expired : response :=
  {| status := 401;
     statusText := lit "Unauthorized";
     contentType := Some (lit "application/json");
     bodyText := lit "{" ++ quoted (lit "detail") ++ lit ":"
                 ++ quoted (lit "Token expired") ++ lit "}";
     bodyJson := Some (JObj {[ lit "detail" := JStr (lit "Token expired") ]}) |}.

Lemma suffix_app_l {A} (k l : list A) : l `suffix_of` k ++ l.
Proof. by exists k. Qed.

(** What the body text is to the [||] chains of both clients: a
    non-empty string is truthy and prints as itself. *)
Lemma carriedText_or_else (body : gmap jsstring jsval) (text : jsstring) :
  carriedText body = Some text -> text <> [] ->
  or_else (default JUndefined (body !! lit "detail"))
          (default JUndefined (body !! lit "message")) = JStr text.
Proof.
  unfold carriedText. intros H Hne.
  destruct (body !! lit "detail") as [[]|] eqn:Hd; simplify_eq; simpl.
  - unfold or_else. simpl. by rewrite bool_decide_eq_false_2.
  - destruct (body !! lit "message") as [[]|] eqn:Hm; by simplify_eq.
Qed.

Lemma getPropOpt_obj (body : gmap jsstring jsval) (k : jsstring) :
  getPropOpt (JObj body) k = default JUndefined (body !! k).
Proof. reflexivity. Qed.

Lemma web_request_failure (eng : engine) (pathname : jsstring)
    (r : response) (body : gmap jsstring jsval) (text : jsstring) :
  ok r = false -> announcesJson r ->
  bodyJson r = Some (JObj body) -> carriedText body = Some text ->
  text <> [] ->
  (WebApi.request eng pathname (Resolved r)).2
  = Rejected (Error (lit "HTTP " ++ showN (status r) ++ lit ": " ++ text)).
Proof.
  intros Hok (ct & Hct & Hjson & _) Hbody Htext Hne.
  unfold WebApi.request. rewrite Hct, Hjson, Hbody, Hok.
  cbn [negb]. unfold WebApi.errorMessage. cbn [typeofObject getProp mbind option_bind].
  rewrite (carriedText_or_else body text Htext Hne). done.
Qed.

Lemma rethrow_suffix (e : jserror) :
  message e `suffix_of` message (MobileApi.rethrow e)
  /\ (message (MobileApi.rethrow e) = message e
      \/ message (MobileApi.rethrow e) = lit "Network error: " ++ message e).
Proof.
  unfold MobileApi.rethrow.
  destruct (bool_decide _); [by split; [|left]|].
  destruct (startsWith _ _); [by split; [|left]|].
  split; [apply suffix_app_l | by right].
Qed.

Lemma mobile_request_failure (eng : engine) (tokenKey userKey : jsstring)
    (r : response) (body : gmap jsstring jsval) (text : jsstring) :
  ok r = false -> announcesJson r ->
  bodyJson r = Some (JObj body) -> carriedText body = Some text ->
  text <> [] -> status r <> 401%N ->
  (MobileApi.request tokenKey userKey eng (Resolved r)).2
  = Rejected (MobileApi.rethrow (Error text)).
Proof.
  intros Hok (ct & Hct & Hjson & Hpdf & Hoct) Hbody Htext Hne H401.
  unfold MobileApi.request.
  apply N.eqb_neq in H401. rewrite H401, Hct. cbv zeta.
  change (default [] (Some ct)) with ct.
  rewrite Hpdf, Hoct, Hjson, Hbody, Hok. cbn [orb negb].
  unfold MobileApi.failureMessage. rewrite !getPropOpt_obj.
  rewrite (carriedText_or_else body text Htext Hne).
  unfold or_else at 1. cbn [truthy]. rewrite bool_decide_eq_false_2 by done.
  done.
Qed.

Lemma mobile_request_unauthorized (eng : engine) (tokenKey userKey : jsstring)
    (r : response) :
  status r = 401%N ->
  MobileApi.request tokenKey userKey eng (Resolved r)
  = ([MobileApi.MultiRemove [tokenKey; userKey]],
     Rejected (Error (lit "UNAUTHORIZED"))).
Proof. intros H. unfold MobileApi.request. by rewrite H. Qed.

(** C6, as amended.  For a failed response announced as JSON whose body
    is an object carrying a non-empty text ([detail], or [message] when
    there is no [detail]): the web client throws
    ["HTTP <status>: <text>"]; the mobile client throws, for every status
    but 401, an error whose message ends with the text (the text itself,
    or the text after ["Network error: "]); on 401 the mobile client
    throws ["UNAUTHORIZED"] whatever the body says. *)
Theorem request_error_from_body (eng : engine)
    (pathname tokenKey userKey : jsstring)
    (r : response) (body : gmap jsstring jsval) (text : jsstring) :
  ok r = false -> announcesJson r ->
  bodyJson r = Some (JObj body) -> carriedText body = Some text ->
  text <> [] ->
  webRaise eng pathname r
    = Some (Error (lit "HTTP " ++ showN (status r) ++ lit ": " ++ text))
  /\ (status r <> 401%N ->
      exists e, mobileRaise eng tokenKey userKey r = Some e
        /\ text `suffix_of` message e
        /\ (message e = text \/ message e = lit "Network error: " ++ text))
  /\ (status r = 401%N ->
      mobileRaise eng tokenKey userKey r = Some (Error (lit "UNAUTHORIZED"))).
Proof.
  intros Hok Hjson Hbody Htext Hne. split_and!.
  - unfold webRaise. by rewrite (web_request_failure _ _ r body text).
  - intros H401. unfold mobileRaise.
    rewrite (mobile_request_failure _ _ _ r body text) by done.
    eexists. split; [done|]. apply (rethrow_suffix (Error text)).
  - intros H401. unfold mobileRaise.
    by rewrite mobile_request_unauthorized.
Qed.

(** A 422 answer with an error body. *)
Definition invalid : response :=
  {| status := 422;
     statusText := lit "Unprocessable Entity";
     contentType := Some (lit "application/json; charset=utf-8");
     bodyText := lit "{" ++ quoted (lit "detail") ++ lit ":"
                 ++ quoted (lit "Message is empty") ++ lit "}";
     bodyJson :=
       Some (JObj {[ lit "detail" := JStr (lit "Message is empty") ]}) |}.

Lemma request_error_from_body_witness :
  webRaise v8 (lit "/dashboard") invalid
    = Some (Error (lit "HTTP 422: Message is empty"))
  /\ mobileRaise v8 (lit "auth_token") (lit "user") invalid
    = Some (Error (lit "Network error: Message is empty")).
Proof.
  assert (ok invalid = false) as Hok by reflexivity.
  assert (announcesJson invalid) as Hjson.
  { eexists. split; [reflexivity|]. by vm_compute. }
  destruct (request_error_from_body v8 (lit "/dashboard") (lit "auth_token")
              (lit "user") invalid _ (lit "Message is empty")
              Hok Hjson eq_refl eq_refl ltac:(done)) as (Hweb & Hmob & _).
  split; [exact Hweb|]. reflexivity.
Defined.

(** On a 401 answer the mobile client throws ["UNAUTHORIZED"], which does
    not end with the [detail] of the body: the mobile client does not
    take every error message from the body. *)
Lemma mobile_unauthorized_ignores_body :
  ~ takesMessageFromBody (mobileRaise v8 (lit "auth_token") (lit "user")).
Proof.
  intros H.
  destruct (H expired {[ lit "detail" := JStr (lit "Token expired") ]}
              (lit "Token expired")) as (e & He & Hsuf).
  - reflexivity.
  - eexists. split; [reflexivity|]. by vm_compute.
  - reflexivity.
  - reflexivity.
  - vm_compute in He. injection He as <-.
    apply suffix_length in Hsuf. vm_compute in Hsuf. lia.
Qed.

(** The web client does take its messages from the body, 401 included. *)
Lemma web_takes_message_from_body (eng : engine) (pathname : jsstring) :
  takesMessageFromBody (webRaise eng pathname).
Proof.
  intros r body text Hok Hjson Hbody Htext.
  destruct (decide (text = [])) as [->|Hne].
  - unfold webRaise, WebApi.request.
    destruct Hjson as (ct & -> & -> & _). rewrite Hbody, Hok. cbn [negb].
    unfold WebApi.errorMessage. cbn [typeofObject getProp mbind option_bind].
    eexists. split; [reflexivity|]. apply suffix_nil.
  - exists (Error (lit "HTTP " ++ showN (status r) ++ lit ": " ++ text)).
    split.
    + unfold webRaise. by rewrite (web_request_failure _ _ r body text).
    + change (text `suffix_of`
                lit "HTTP " ++ showN (status r) ++ lit ": " ++ text).
      rewrite !app_assoc. apply suffix_app_l.
Qed.

End HttpFacts.

Module DashboardFacts.
Import Text JS.


Lemma percentage_positive (t count : Z) :
  (0 < t)%Z ->
  DashboardStats.percentage t count = (inject_Z count / inject_Z t * 100)%Q.
Proof.
  intros H. unfold DashboardStats.percentage.
  by rewrite (proj2 (Z.ltb_lt 0 t) H).
Qed.


(** The mobile dashboard computes the same percentage. *)
Lemma pct_percentage (t count : Z) :
  DashboardScreen.pct t count = DashboardStats.percentage t count.
Proof. reflexivity. Qed.



(** With messages to count, the bars are the shares in percent. *)
Example sentimentBars_shares :
  DashboardStats.sentimentBars
    [(lit "positive", 3%Z); (lit "negative", 1%Z)]
  = [(lit "positive", 3%Z, (3 / 4 * 100)%Q);
     (lit "negative", 1%Z, (1 / 4 * 100)%Q)].
Proof. reflexivity. Qed.

End DashboardFacts.

Module AnalysisContextFacts.
Import Text JS AnalysisContext.

Definition ids (h : list entry) : list scalar := analysis_id <$> h.

Lemma isDuplicate_spec (e : entry) (prev : list entry) :
  existsb (fun item => bool_decide (analysis_id item = analysis_id e)) prev = true
  <-> analysis_id e ∈ ids prev.
Proof.
  unfold ids. rewrite existsb_exists, list_elem_of_fmap. split.
  - intros (item & Hin & Heq). apply bool_decide_eq_true in Heq.
    exists item. split; [done|]. by apply list_elem_of_In.
  - intros (item & Heq & Hin). exists item.
    split; [by apply list_elem_of_In|]. by apply bool_decide_eq_true.
Qed.

Lemma addEntry_duplicate (e : entry) (prev : list entry) :
  analysis_id e ∈ ids prev -> addEntry e prev = prev.
Proof.
  intros H. unfold addEntry. by rewrite (proj2 (isDuplicate_spec e prev) H).
Qed.

Lemma addEntry_fresh (e : entry) (prev : list entry) :
  analysis_id e ∉ ids prev -> addEntry e prev = take 100 (e :: prev).
Proof.
  intros H. unfold addEntry.
  destruct (existsb _ prev) eqn:Hd; [|done].
  by apply isDuplicate_spec in Hd.
Qed.

(** The invariant of the local history. *)
Definition bounded (h : list entry) : Prop :=
  length h <= 100 /\ NoDup (ids h).

Lemma addEntry_bounded (e : entry) (prev : list entry) :
  bounded prev -> bounded (addEntry e prev).
Proof.
  intros [Hlen Hnd]. destruct (decide (analysis_id e ∈ ids prev)) as [Hin|Hout].
  - by rewrite addEntry_duplicate.
  - rewrite addEntry_fresh by done. split.
    + rewrite length_take. lia.
    + unfold ids. rewrite fmap_take.
      apply (sublist_NoDup _ (ids (e :: prev))); [|apply sublist_take].
      simpl. by apply NoDup_cons.
Qed.

Lemma addEntry_sublist (e : entry) (prev : list entry) :
  addEntry e prev `sublist_of` e :: prev.
Proof.
  unfold addEntry. destruct (existsb _ prev).
  - by apply sublist_cons.
  - apply sublist_take.
Qed.

Lemma run_snoc (calls : list call) (c : call) (st : state) :
  run (calls ++ [c]) st
  = addAnalysis (c_clock c) (c_message c) (c_result c) (run calls st).
Proof. unfold run. by rewrite foldl_app. Qed.

Lemma run_bounded (calls : list call) (st : state) :
  bounded (analysisHistory st) -> bounded (analysisHistory (run calls st)).
Proof.
  intros Hst. induction calls as [|c calls IH] using rev_ind; [done|].
  rewrite run_snoc. simpl. by apply addEntry_bounded.
Qed.

Lemma run_recent_first (calls : list call) :
  analysisHistory (run calls initial) `sublist_of` reverse (callEntry <$> calls).
Proof.
  induction calls as [|c calls IH] using rev_ind; [done|].
  rewrite run_snoc, fmap_app, reverse_app. simpl.
  etrans; [apply addEntry_sublist|]. by apply sublist_skip.
Qed.

(** C9. After any sequence of [addAnalysis] calls the local history
    holds at most 100 entries with pairwise distinct ids, most recent
    first (it is a subsequence of the entries of the calls, latest call
    first); a further call whose id is already in the history leaves it
    unchanged, and any other call puts its entry at the front and keeps
    the first 100. *)
Theorem addAnalysis_history (calls : list call) :
  let st := run calls initial in
  let h := analysisHistory st in
  length h <= 100
  /\ NoDup (ids h)
  /\ h `sublist_of` reverse (callEntry <$> calls)
  /\ forall clk message r,
       let e := newEntry clk message r in
       let h' := analysisHistory (addAnalysis clk message r st) in
       (analysis_id e ∈ ids h -> h' = h)
       /\ (analysis_id e ∉ ids h ->
           h' = take 100 (e :: h) /\ head h' = Some e).
Proof.
  intros st h.
  destruct (run_bounded calls initial) as [Hlen Hnd].
  { split; [simpl; lia | constructor]. }
  split_and!; [done|done|apply run_recent_first|].
  intros clk message r e h'. subst h'.
  change (analysisHistory (addAnalysis clk message r st)) with (addEntry e h).
  split.
  - apply addEntry_duplicate.
  - intros Hfresh. rewrite addEntry_fresh by done. done.
Qed.

Definition sampleResult (id : jsstring) : result :=
  {| r_analysis_id := SStr id;
     r_sentiment := JStr (lit "positive");
     r_confidence := JNum 1;
     r_emotions := JNull;
     r_emoji_analysis := JNull;
     r_timestamp := JUndefined |}.

Definition noon : clock :=
  {| dateNow := 1762084800000; isoNow := lit "2025-11-02T12:00:00.000Z" |}.

Definition sampleCalls : list call :=
  [ {| c_clock := noon; c_message := lit "great day";
       c_result := sampleResult (lit "a1") |};
    {| c_clock := noon; c_message := lit "so so";
       c_result := sampleResult (lit "b2") |} ].

Lemma addAnalysis_history_witness :
  ids (analysisHistory
         (addAnalysis noon (lit "great day") (sampleResult (lit "a1"))
            (run sampleCalls initial)))
  = [SStr (lit "b2"); SStr (lit "a1")]
  /\ ids (analysisHistory
            (addAnalysis noon (lit "new") (sampleResult (lit "c3"))
               (run sampleCalls initial)))
     = [SStr (lit "c3"); SStr (lit "b2"); SStr (lit "a1")].
Proof.
  destruct (addAnalysis_history sampleCalls) as (_ & _ & _ & Hstep).
  split.
  - destruct (Hstep noon (lit "great day") (sampleResult (lit "a1")))
      as [Hdup _].
    rewrite Hdup; [reflexivity|]. vm_compute. apply list_elem_of_In.
    simpl. tauto.
  - destruct (Hstep noon (lit "new") (sampleResult (lit "c3")))
      as [_ Hfresh].
    destruct Hfresh as [-> _]; [|reflexivity].
    vm_compute. intros Hin. apply list_elem_of_In in Hin. simpl in Hin.
    destruct Hin as [?|[?|[]]]; discriminate.
Defined.

(** An analysis without id is filed under the time of the call. *)
Example addAnalysis_clock_id :
  ids (analysisHistory
         (addAnalysis noon (lit "hello")
            {| r_analysis_id := SUndefined; r_sentiment := JNull;
               r_confidence := JNull; r_emotions := JNull;
               r_emoji_analysis := JNull; r_timestamp := JNull |}
            initial))
  = [SStr (lit "1762084800000")].
Proof. reflexivity. Qed.

(** C10. [removeAnalysis] is all or nothing on the local history: when
    the server delete succeeds, the history keeps, in order, exactly the
    entries whose id differs from [analysisId]; when it fails, the
    history is unchanged, the message of the error is recorded and the
    error is thrown again. *)
Theorem removeAnalysis_atomic (analysisId : scalar) (st : state) :
  (forall v,
     let (st', outcome) := removeAnalysis (Resolved v) analysisId st in
     outcome = Resolved ()
     /\ error st' = error st
     /\ analysisHistory st' `sublist_of` analysisHistory st
     /\ forall a, a ∈ analysisHistory st'
          <-> a ∈ analysisHistory st /\ analysis_id a <> analysisId)
  /\ (forall err,
        let (st', outcome) := removeAnalysis (Rejected err) analysisId st in
        outcome = Rejected err
        /\ analysisHistory st' = analysisHistory st
        /\ error st' = Some (JS.message err)).
Proof.
  split.
  - intros v. simpl. split_and!; [done|done| |].
    + induction (analysisHistory st) as [|a h IH]; simpl; [done|].
      destruct (negb _); [by apply sublist_skip | by apply sublist_cons].
    + intros a. rewrite !list_elem_of_In, filter_In, negb_true_iff.
      by rewrite bool_decide_eq_false.
  - intros err. simpl. done.
Qed.

Example removeAnalysis_sample :
  ids (analysisHistory
         (removeAnalysis (Resolved JNull) (SStr (lit "a1"))
            (run sampleCalls initial)).1)
  = [SStr (lit "b2")].
Proof. reflexivity. Qed.

End AnalysisContextFacts.

Module HealthFacts.
Import Text JS Engine.

(** Some red flag has severity [high]. *)
Definition anyHigh (flags : list Finding) : Prop :=
  exists f, f ∈ flags /\ severity f = high.

Lemma existsb_high (flags : list Finding) :
  existsb (fun f => bool_decide (severity f = high)) flags = true
  <-> anyHigh flags.
Proof.
  rewrite existsb_exists. unfold anyHigh.
  split; intros (f & Hin & Hsev); exists f.
  - split; [by apply list_elem_of_In | by apply bool_decide_eq_true in Hsev].
  - split; [by apply list_elem_of_In | by apply bool_decide_eq_true].
Qed.

Lemma deriveHealth_concerning (flags warns : list Finding) :
  deriveHealth flags warns = concerning
  <-> 2 <= length flags \/ anyHigh flags.
Proof.
  unfold deriveHealth. rewrite <- existsb_high, <- Nat.leb_le, <- orb_true_iff.
  destruct (_ || _); [done|].
  destruct (_ || _); split; (done || intros [?|?]; done).
Qed.

Lemma deriveHealth_moderate (flags warns : list Finding) :
  deriveHealth flags warns = moderate
  <-> ~ (2 <= length flags \/ anyHigh flags)
      /\ (1 <= length flags \/ 2 <= length warns).
Proof.
  unfold deriveHealth.
  rewrite <- existsb_high, <- !Nat.leb_le, <- !orb_true_iff.
  destruct (_ || _).
  - split; [done|]. by intros [[] _].
  - destruct (_ || _).
    + split; [|done]. intros _. split; [by intros ?|done].
    + split; [done|]. by intros [_ ?].
Qed.

Lemma deriveHealth_healthy (flags warns : list Finding) :
  deriveHealth flags warns = healthy
  <-> ~ (2 <= length flags \/ anyHigh flags)
      /\ ~ (1 <= length flags \/ 2 <= length warns).
Proof.
  unfold deriveHealth.
  rewrite <- existsb_high, <- !Nat.leb_le, <- !orb_true_iff.
  destruct (_ || _).
  - split; [done|]. by intros [[] _].
  - destruct (_ || _).
    + split; [done|]. by intros [_ []].
    + split; [|done]. intros _. split; by intros ?.
Qed.

(** C1. The health label of a red-flag report is derived from its
    findings: it is concerning exactly when there are two red flags or
    more, or a red flag of high severity; otherwise moderate exactly when
    there is a red flag, or two warnings or more; otherwise healthy.  The
    totals are the numbers of findings, and the label is spelled
    ["healthy"], ["moderate"] or ["concerning"]. *)
Theorem overallHealth_derived (flags warns : list Finding) :
  let r := report flags warns in
  totalRedFlags r = length (redFlags r)
  /\ totalWarnings r = length (warnings r)
  /\ (overallHealth r = concerning
      <-> 2 <= totalRedFlags r \/ anyHigh (redFlags r))
  /\ (overallHealth r = moderate
      <-> ~ (2 <= totalRedFlags r \/ anyHigh (redFlags r))
          /\ (1 <= totalRedFlags r \/ 2 <= totalWarnings r))
  /\ (overallHealth r = healthy
      <-> ~ (2 <= totalRedFlags r \/ anyHigh (redFlags r))
          /\ ~ (1 <= totalRedFlags r \/ 2 <= totalWarnings r))
  /\ healthName (overallHealth r)
       ∈ [lit "healthy"; lit "moderate"; lit "concerning"].
Proof.
  intros r. subst r. cbn [report totalRedFlags totalWarnings redFlags
                           warnings overallHealth].
  split_and!; [done|done|apply deriveHealth_concerning
              |apply deriveHealth_moderate|apply deriveHealth_healthy|].
  destruct (deriveHealth flags warns); simpl; set_solver.
Qed.

Definition imbalance : Finding :=
  {| f_type := lit "message_imbalance"; severity := high;
     description := lit "Alice sends 5x more messages";
     suggestion := lit "Talk about it" |}.

Definition slow : Finding :=
  {| f_type := lit "slow_responses"; severity := medium;
     description := lit "Bob answers after 4 hours on average";
     suggestion := lit "Ask about availability" |}.

(** One high red flag is enough for a concerning report; one medium red
    flag alone gives a moderate one; a single warning leaves it healthy. *)
Example overallHealth_high : overallHealth (report [imbalance] []) = concerning.
Proof. reflexivity. Qed.

Example overallHealth_medium : overallHealth (report [slow] []) = moderate.
Proof. reflexivity. Qed.

Example overallHealth_one_warning : overallHealth (report [] [slow]) = healthy.
Proof. reflexivity. Qed.

(** The web client shows its "no significant issues" panel only on
    healthy reports. *)
Lemma noFlagsShown_healthy (flags warns : list Finding) :
  let r := report flags warns in
  ChatImportView.noFlagsShown (JNum (Z.of_nat (totalRedFlags r)))
                              (JNum (Z.of_nat (totalWarnings r))) = true ->
  overallHealth r = healthy.
Proof.
  simpl. unfold ChatImportView.noFlagsShown, ChatImportView.isZero.
  rewrite andb_true_iff, !Z.eqb_eq. intros [Hf Hw].
  destruct flags; [|simpl in Hf; lia]. destruct warns; [|simpl in Hw; lia].
  reflexivity.
Qed.

End HealthFacts.

Module ScorerFacts.
Import Text Engine TextFacts.

(** [t] contains no emoji. *)
Definition emojiFree (t : ustring) : Prop :=
  Forall (fun c => isEmoji c = false) t.

Lemma emojiHeads_free (joined : bool) (t : ustring) :
  emojiFree t -> emojiHeads joined t = [].
Proof.
  intros Hfree. revert joined.
  induction Hfree as [|c r Hc _ IH]; intros joined; simpl; [done|].
  rewrite Hc. destruct (c =? ZWJ)%N; apply IH.
Qed.

Section Scoring.
Variable polarity : N -> Z.
Variable extraFillers : list ustring.
Variable EmotionMap : Type.
Variable lexicalPhases :
  ustring -> EmojiAnalysis -> option (ClassifierResult EmotionMap)
  -> SentimentResult EmotionMap.

Lemma Analyze_free (t : ustring) :
  emojiFree t ->
  Analyze polarity t
  = {| ea_label := neutral; ea_confidence := 0; ea_hasEmojis := false |}.
Proof. intros H. unfold Analyze. by rewrite emojiHeads_free. Qed.

(** The filler answer of step 1. *)
Definition fillerResult : SentimentResult EmotionMap :=
  {| label := neutral; confidence := 0.55; emotions := None;
     emojiAnalysis := Some {| ea_label := neutral; ea_confidence := 0;
                              ea_hasEmojis := false |} |}.

(** Step 1 of the scorer answers a filler without emoji at once,
    whatever the classifier hint. *)
Lemma Score_filler (t : ustring)
    (hint : option (ClassifierResult EmotionMap)) :
  normalise t ∈ fillerSet extraFillers -> emojiFree t ->
  Score polarity extraFillers EmotionMap lexicalPhases t hint = fillerResult.
Proof.
  intros Hfill Hfree. unfold Score, isFiller.
  rewrite (Analyze_free t Hfree), bool_decide_eq_true_2 by done. done.
Qed.

(** C3. For every text whose normalised form is in the filler set and
    which contains no emoji, [AnalyzeMessage] returns the label neutral
    with confidence 0.55 and no emotions map; in particular
    [AnalyzeMessage "ok"] is neutral, 0.55, without emotions. *)
Theorem AnalyzeMessage_filler :
  (forall t,
      normalise t ∈ fillerSet extraFillers -> emojiFree t ->
      let r := AnalyzeMessage polarity extraFillers EmotionMap lexicalPhases t in
      label _ r = neutral /\ confidence _ r = 0.55%Q /\ emotions _ r = None)
  /\ (let r := AnalyzeMessage polarity extraFillers EmotionMap lexicalPhases
                 (lit "ok") in
      label _ r = neutral /\ confidence _ r = 0.55%Q /\ emotions _ r = None).
Proof.
  assert (forall t,
      normalise t ∈ fillerSet extraFillers -> emojiFree t ->
      let r := AnalyzeMessage polarity extraFillers EmotionMap lexicalPhases t in
      label _ r = neutral /\ confidence _ r = 0.55%Q /\ emotions _ r = None)
    as Hall.
  { intros t Hfill Hfree r. subst r. unfold AnalyzeMessage.
    by rewrite Score_filler. }
  split; [exact Hall|]. apply Hall.
  - unfold fillerSet. apply elem_of_app. left. vm_compute. apply list_elem_of_here.
  - by repeat constructor.
Qed.

End Scoring.

(** A scorer instance to run the examples: no emoji carries weight, no
    further fillers, and every text past step 1 counts as positive. *)
Definition alwaysPositive (t : ustring) (e : EmojiAnalysis)
    (hint : option (ClassifierResult unit)) : SentimentResult unit :=
  {| label := positive; confidence := 0.6; emotions := None;
     emojiAnalysis := Some e |}.

Definition analyze : ustring -> SentimentResult unit :=
  AnalyzeMessage (fun _ => 0%Z) [] unit alwaysPositive.

Lemma AnalyzeMessage_filler_witness :
  label _ (analyze (lit "  LOL ")) = neutral
  /\ confidence _ (analyze (lit "  LOL ")) = 0.55%Q
  /\ emotions _ (analyze (lit "  LOL ")) = None.
Proof.
  apply (proj1 (AnalyzeMessage_filler (fun _ => 0%Z) [] unit alwaysPositive)
           (lit "  LOL ")).
  - vm_compute. apply list_elem_of_In. simpl. tauto.
  - by repeat constructor.
Defined.

(** A filler that comes with an emoji is not answered by step 1. *)
Example AnalyzeMessage_filler_emoji :
  label _ (analyze (lit "ok" ++ [0x1F60A%N])) = positive.
Proof. reflexivity. Qed.

End ScorerFacts.

Module ParticipantFacts.
Import Text JS Engine.

(** The caller supplied a name, and it matches [n] up to case and
    surrounding white space. *)
Definition matchesSelf (selfName : option ustring) (n : ustring) : Prop :=
  exists s, selfName = Some s /\ normalise s = normalise n.

(** At most one participant of [ps] has the role [self]. *)
Definition atMostOneSelf (ps : gmap ustring Participant) : Prop :=
  forall n1 p1 n2 p2,
    ps !! n1 = Some p1 -> ps !! n2 = Some p2 ->
    role p1 = self -> role p2 = self -> n1 = n2.

(** The role rule, as section 3 of the specification words it. *)
Definition roleRule (selfName : option ustring)
    (ps : gmap ustring Participant) : Prop :=
  (forall n p, ps !! n = Some p -> role p = self \/ role p = other)
  /\ (forall n p, ps !! n = Some p ->
        (role p = self <-> matchesSelf selfName (name p)))
  /\ atMostOneSelf ps.

(** Two participants whose names are two spellings of the caller's name,
    [Alice] and [alice] for the self name [alice]: no assignment of roles
    to them meets the rule.  Whatever the engine answers, either a
    matching participant is not [self] or two participants are. *)
Lemma two_spellings_no_assignment (ps : gmap ustring Participant) :
  (forall n, n ∈ [lit "Alice"; lit "alice"] ->
     exists p, ps !! n = Some p /\ name p = n) ->
  ~ roleRule (Some (lit "alice")) ps.
Proof.
  intros Hdom (_ & Hiff & Hone).
  destruct (Hdom (lit "Alice")) as (p1 & H1 & N1); [apply list_elem_of_here|].
  destruct (Hdom (lit "alice")) as (p2 & H2 & N2);
    [apply list_elem_of_further, list_elem_of_here|].
  assert (lit "Alice" = lit "alice") as Heq; [|discriminate Heq].
  apply (Hone _ p1 _ p2 H1 H2).
  - apply (Hiff _ _ H1). rewrite N1. by eexists.
  - apply (Hiff _ _ H2). rewrite N2. by eexists.
Qed.

(** The web client marks a participant as the caller on the wire role
    ['you'] and on no other. *)
Lemma participantBadge_you (role : jsval) :
  ChatImportView.participantBadge role = ChatImportView.BadgeYou
  <-> role = JStr (lit "you").
Proof.
  unfold ChatImportView.participantBadge.
  destruct role; try (split; discriminate).
  case_bool_decide; split; try done; congruence.
Qed.

End ParticipantFacts.

Module RollupFacts.
Import Text Engine.

(** The unit roundoff of binary64 floats, 2^-53. *)
Definition unitRoundoff : Q := 1 # 9007199254740992.

(** [rnd] rounds with a relative error of at most the unit roundoff, as
    rounding to nearest does on the normal range of binary64. *)
Definition roundsToNearest (rnd : Q -> Q) : Prop :=
  forall x, (0 <= x)%Q ->
    (x * (1 - unitRoundoff) <= rnd x)%Q /\ (rnd x <= x * (1 + unitRoundoff))%Q.

(** [p] has a scored message in [msgs]: one it sent that is no media
    placeholder. *)
Definition hasScored (p : ustring) (msgs : list Message) : Prop :=
  exists m, m ∈ msgs /\ sender m = p /\ isMedia m = false.

Lemma scoredOf_nonempty (p : ustring) (msgs : list Message) :
  hasScored p msgs -> 0 < length (scoredOf p msgs).
Proof.
  intros (m & Hin & Hp & Hmedia).
  assert (In m (scoredOf p msgs)) as Hm.
  { apply filter_In. split; [by apply list_elem_of_In|].
    rewrite Hmedia. simpl. by apply bool_decide_eq_true. }
  destruct (scoredOf p msgs); [done | simpl; lia].
Qed.

Lemma share_nonneg (count total : nat) :
  (0 <= inject_Z (Z.of_nat count) / inject_Z (Z.of_nat total))%Q.
Proof.
  apply Qmult_le_0_compat.
  - change 0%Q with (inject_Z 0). rewrite <- Zle_Qle. lia.
  - apply Qinv_le_0_compat. change 0%Q with (inject_Z 0).
    rewrite <- Zle_Qle. lia.
Qed.

Lemma shares_sum (a b c total : nat) :
  a + b + c = total -> 0 < total ->
  (inject_Z (Z.of_nat a) / inject_Z (Z.of_nat total)
   + inject_Z (Z.of_nat b) / inject_Z (Z.of_nat total)
   + inject_Z (Z.of_nat c) / inject_Z (Z.of_nat total) == 1)%Q.
Proof.
  intros Hsum Hpos.
  assert (~ (inject_Z (Z.of_nat total) == 0)%Q) as Hnz.
  { change 0%Q with (inject_Z 0). rewrite inject_Z_injective. lia. }
  assert (inject_Z (Z.of_nat total)
          == inject_Z (Z.of_nat a) + inject_Z (Z.of_nat b)
             + inject_Z (Z.of_nat c))%Q as Htotal.
  { rewrite <- !inject_Z_plus, inject_Z_injective. lia. }
  rewrite Htotal in Hnz |- *. by field.
Qed.

Section Rollup.
Variable polarity : N -> Z.
Variable extraFillers : list ustring.
Variable EmotionMap : Type.
Variable lexicalPhases :
  ustring -> EmojiAnalysis -> option (ClassifierResult EmotionMap)
  -> SentimentResult EmotionMap.
Variable classifier : ustring -> option (ClassifierResult EmotionMap).
Variable rnd : Q -> Q.

Let count : Label -> list Message -> nat :=
  countLabel polarity extraFillers EmotionMap lexicalPhases classifier.

(** Every scored message counts under exactly one label. *)
Lemma countLabel_total (ms : list Message) :
  count positive ms + count neutral ms + count negative ms = length ms.
Proof.
  unfold count, countLabel. induction ms as [|m ms IH]; simpl; [done|].
  destruct (labelOf _ _ _ _ _ m); simpl; lia.
Qed.

(** C2. For every participant with at least one scored message, the
    three sentiment ratios of the rollup, each stored as the float
    nearest to its share, sum to 1 within 1e-6. *)
Theorem participant_ratios_sum (p : ustring) (msgs : list Message) :
  roundsToNearest rnd ->
  hasScored p msgs ->
  let s := participantSentiment polarity extraFillers EmotionMap
             lexicalPhases classifier rnd p msgs in
  (1 - 1e-6 <= positiveRatio s + neutralRatio s + negativeRatio s)%Q
  /\ (positiveRatio s + neutralRatio s + negativeRatio s <= 1 + 1e-6)%Q.
Proof.
  intros Hrnd Hscored s. subst s.
  pose proof (scoredOf_nonempty p msgs Hscored) as Hpos.
  pose proof (countLabel_total (scoredOf p msgs)) as Hsum.
  unfold participantSentiment, ratio. cbn [positiveRatio neutralRatio negativeRatio].
  fold count. destruct (length (scoredOf p msgs)) as [|k] eqn:Hk; [lia|].
  cbn [Nat.eqb].
  pose proof (shares_sum _ _ _ (S k) Hsum Hpos) as Hone.
  set (a := (inject_Z (Z.of_nat (count positive (scoredOf p msgs)))
             / inject_Z (Z.of_nat (S k)))%Q) in *.
  set (b := (inject_Z (Z.of_nat (count neutral (scoredOf p msgs)))
             / inject_Z (Z.of_nat (S k)))%Q) in *.
  set (c := (inject_Z (Z.of_nat (count negative (scoredOf p msgs)))
             / inject_Z (Z.of_nat (S k)))%Q) in *.
  destruct (Hrnd a (share_nonneg _ _)) as [Ha1 Ha2].
  destruct (Hrnd b (share_nonneg _ _)) as [Hb1 Hb2].
  destruct (Hrnd c (share_nonneg _ _)) as [Hc1 Hc2].
  clearbody a b c. unfold unitRoundoff in *.
  generalize dependent (rnd a). generalize dependent (rnd b).
  generalize dependent (rnd c). intros rc Hc1 Hc2 rb Hb1 Hb2 ra Ha1 Ha2.
  change 1e-6%Q with (1 # 1000000)%Q.
  split; lra.
Qed.

(** Without scored messages the denominator is 0 and the three ratios
    are 0. *)
Lemma participantSentiment_no_scored (p : ustring) (msgs : list Message) :
  ~ hasScored p msgs ->
  participantSentiment polarity extraFillers EmotionMap lexicalPhases
    classifier rnd p msgs
  = {| positiveRatio := 0; neutralRatio := 0; negativeRatio := 0 |}.
Proof.
  intros Hnone. unfold participantSentiment.
  assert (scoredOf p msgs = []) as ->; [|done].
  destruct (scoredOf p msgs) as [|m ms] eqn:Hs; [done|]. exfalso.
  assert (In m (scoredOf p msgs)) as Hm by (rewrite Hs; by left).
  apply filter_In in Hm as [Hin Hm]. apply andb_true_iff in Hm as [Hmedia Hp].
  apply Hnone. exists m. split_and!.
  - by apply list_elem_of_In.
  - by apply bool_decide_eq_true in Hp.
  - by apply negb_true_iff.
Qed.

End Rollup.

(** The example conversation of the specification, scored by a scorer
    that finds every text past the filler test positive, with exact
    ratios. *)
Definition newYear : list Message :=
  [ {| timestamp := Some 1704061800%Z; sender := lit "Alice";
       text := lit "I'm feeling great today!"; platform := whatsapp;
       isMedia := false |};
    {| timestamp := Some 1704061860%Z; sender := lit "Bob";
       text := lit "Awesome!"; platform := whatsapp; isMedia := false |} ].

Definition aliceRatios : Ratios :=
  participantSentiment (fun _ => 0%Z) [] unit ScorerFacts.alwaysPositive
    (fun _ => None) (fun x => x) (lit "Alice") newYear.

Lemma participant_ratios_sum_witness :
  (1 - 1e-6 <= positiveRatio aliceRatios + neutralRatio aliceRatios
               + negativeRatio aliceRatios)%Q
  /\ (positiveRatio aliceRatios + neutralRatio aliceRatios
      + negativeRatio aliceRatios <= 1 + 1e-6)%Q.
Proof.
  apply (participant_ratios_sum (fun _ => 0%Z) [] unit
           ScorerFacts.alwaysPositive (fun _ => None) (fun x => x)
           (lit "Alice") newYear).
  - intros x Hx. unfold unitRoundoff. split; nra.
  - eexists. split; [apply list_elem_of_here|]. split; reflexivity.
Defined.

(** Alice's one message is positive: her positive ratio is 1. *)
Example newYear_alice_positive : (positiveRatio aliceRatios == 1)%Q.
Proof. reflexivity. Qed.

(** A participant without scored messages has all ratios 0. *)
Example no_scored_messages :
  participantSentiment (fun _ => 0%Z) [] unit ScorerFacts.alwaysPositive
    (fun _ => None) (fun x => x) (lit "Carol") newYear
  = {| positiveRatio := 0; neutralRatio := 0; negativeRatio := 0 |}.
Proof. reflexivity. Qed.

End RollupFacts.

(* ===================================================================== *)
(** * Further properties of the clients *)
(* ===================================================================== *)

Module TrimFacts.
Import Text JS TextFacts.

Section Trim.
Variable ws : N -> bool.

(** A string that starts with no white space. *)
Definition startsClean (s : ustring) : Prop :=
  match s with
  | [] => True
  | c :: _ => ws c = false
  end.

Lemma trimStartWith_clean (s : ustring) : startsClean (trimStartWith ws s).
Proof.
  induction s as [|c r IH]; simpl; [done|].
  destruct (ws c) eqn:Hc; [done|]. simpl. done.
Qed.

Lemma trimStartWith_fixed (s : ustring) :
  startsClean s -> trimStartWith ws s = s.
Proof. destruct s as [|c r]; simpl; [done|]. by intros ->. Qed.

Lemma trimEndWith_clean (s : ustring) :
  startsClean s -> startsClean (trimEndWith ws s).
Proof.
  destruct s as [|c r]; simpl; [done|]. intros Hc.
  destruct (trimEndWith ws r); [by rewrite Hc|done].
Qed.

Lemma trimEndWith_idemp (s : ustring) :
  trimEndWith ws (trimEndWith ws s) = trimEndWith ws s.
Proof.
  induction s as [|c r IH]; simpl; [done|].
  destruct (trimEndWith ws r) as [|x r'] eqn:Hr.
  - destruct (ws c) eqn:Hc; simpl; [done|]. by rewrite Hc.
  - simpl in *. destruct (trimEndWith ws r') as [|y r''] eqn:Hr'.
    + destruct (ws x); [done|]. by rewrite IH.
    + by rewrite IH.
Qed.

(** [trim] leaves a trimmed string as it is. *)
Lemma trimWith_idemp (s : ustring) :
  trimWith ws (trimWith ws s) = trimWith ws s.
Proof.
  unfold trimWith.
  rewrite (trimStartWith_fixed (trimEndWith ws (trimStartWith ws s))).
  - apply trimEndWith_idemp.
  - apply trimEndWith_clean, trimStartWith_clean.
Qed.

Lemma trimStartWith_sublist (s : ustring) : trimStartWith ws s `sublist_of` s.
Proof.
  induction s as [|c r IH]; simpl; [done|].
  destruct (ws c); [by apply sublist_cons | done].
Qed.

Lemma trimEndWith_sublist (s : ustring) : trimEndWith ws s `sublist_of` s.
Proof.
  induction s as [|c r IH]; simpl; [done|].
  destruct (trimEndWith ws r) as [|x r'].
  - destruct (ws c); [apply sublist_nil_l|].
    apply sublist_skip, sublist_nil_l.
  - by apply sublist_skip.
Qed.

Lemma trimWith_sublist (s : ustring) : trimWith ws s `sublist_of` s.
Proof.
  unfold trimWith. etrans; [apply trimEndWith_sublist|].
  apply trimStartWith_sublist.
Qed.

End Trim.

Lemma trim_idemp (s : jsstring) : trim (trim s) = trim s.
Proof. apply trimWith_idemp. Qed.

Lemma trim_length (s : jsstring) : length (trim s) <= length s.
Proof. apply trimWith_length. Qed.

End TrimFacts.

Module TextHelpersFacts.
Import Text JS TextFacts TrimFacts TextHelpers.

Lemma filter_fixed {A} (p : A -> bool) (l : list A) :
  Forall (fun x => p x = true) l -> List.filter p l = l.
Proof.
  induction 1 as [|x l Hx _ IH]; simpl; [done|]. by rewrite Hx, IH.
Qed.

Lemma filter_all {A} (p : A -> bool) (l : list A) :
  Forall (fun x => p x = true) (List.filter p l).
Proof.
  apply Forall_forall. intros x Hx. apply list_elem_of_In in Hx.
  by apply filter_In in Hx as [_ Hx].
Qed.

Lemma filter_length_le {A} (p : A -> bool) (l : list A) :
  length (List.filter p l) <= length l.
Proof.
  induction l as [|x l IH]; simpl; [done|]. destruct (p x); simpl; lia.
Qed.

(** [sanitizeText] yields a text without angle brackets and without
    white space at either end, no longer than its argument, and
    sanitizing a sanitized text changes nothing. *)
Theorem sanitizeText_clean (text : jsstring) :
  Forall (fun c => c <> 60%N /\ c <> 62%N) (sanitizeText text)
  /\ trim (sanitizeText text) = sanitizeText text
  /\ sanitizeText (sanitizeText text) = sanitizeText text
  /\ length (sanitizeText text) <= length text.
Proof.
  unfold sanitizeText.
  set (keep := fun c => negb (isAngle c)).
  assert (Forall (fun c => keep c = true) (trim (List.filter keep text)))
    as Hkeep.
  { apply Forall_forall. intros c Hc.
    pose proof (elem_of_sublist _ _ _ Hc
                  (trimWith_sublist isWhiteSpace (List.filter keep text)))
      as Hin.
    exact (proj1 (Forall_forall _ _) (filter_all keep text) c Hin). }
  split_and!.
  - eapply Forall_impl; [exact Hkeep|]. intros c Hc. unfold keep, isAngle in Hc.
    apply negb_true_iff, orb_false_iff in Hc as [H1 H2].
    by apply N.eqb_neq in H1, H2.
  - apply trim_idemp.
  - rewrite (filter_fixed keep _ Hkeep). apply trim_idemp.
  - etrans; [apply trim_length|]. apply filter_length_le.
Qed.

(** [truncateText] returns a text within the limit as it is; a longer
    one is cut to at most [maxLength] code units followed by ["..."],
    so the result has at most [maxLength + 3] code units (3 for a
    negative limit). *)
Theorem truncateText_bound (text : jsstring) (maxLength : Z) :
  ((Z.of_nat (length text) <= maxLength)%Z ->
     truncateText text maxLength = text)
  /\ ((maxLength < Z.of_nat (length text))%Z ->
      lit "..." `suffix_of` truncateText text maxLength
      /\ length (truncateText text maxLength) <= Z.to_nat maxLength + 3
      /\ length (truncateText text maxLength) <= length text + 3).
Proof.
  unfold truncateText, substring0. split.
  - intros H. by rewrite (proj2 (Z.leb_le _ _) H).
  - intros H. rewrite (proj2 (Z.leb_gt _ _) H).
    pose proof (trim_length (take (Z.to_nat maxLength) text)) as Htrim.
    rewrite length_take in Htrim.
    split_and!; [by eexists|rewrite length_app; simpl; lia..].
Qed.

(** A text one code unit over the limit comes back longer than it
    was. *)
Example truncateText_grows :
  truncateText (lit "abcdef") 5 = lit "abcde...".
Proof. reflexivity. Qed.

End TextHelpersFacts.

Module RegexFacts.
Import Regex.

(** The strings a pattern matches from end to end. *)
Inductive lang : regex -> list N -> Prop :=
| lang_eps : lang Eps []
| lang_class p c : p c = true -> lang (Class p) [c]
| lang_seq r1 r2 s1 s2 :
    lang r1 s1 -> lang r2 s2 -> lang (Seq r1 r2) (s1 ++ s2)
| lang_alt_l r1 r2 s : lang r1 s -> lang (Alt r1 r2) s
| lang_alt_r r1 r2 s : lang r2 s -> lang (Alt r1 r2) s
| lang_star_nil r : lang (Star r) []
| lang_star_app r s1 s2 :
    lang r s1 -> lang (Star r) s2 -> lang (Star r) (s1 ++ s2).

Lemma lang_void_inv (s : list N) : lang Void s <-> False.
Proof. split; [inversion 1 | done]. Qed.

Lemma lang_eps_inv (s : list N) : lang Eps s <-> s = [].
Proof. split; [by inversion 1 | intros ->; constructor]. Qed.

Lemma lang_class_inv (p : N -> bool) (s : list N) :
  lang (Class p) s <-> exists c, s = [c] /\ p c = true.
Proof.
  split; [inversion 1; subst; eauto|].
  intros (c & -> & Hc). by constructor.
Qed.

Lemma lang_seq_inv (r1 r2 : regex) (s : list N) :
  lang (Seq r1 r2) s <-> exists s1 s2, s = s1 ++ s2 /\ lang r1 s1 /\ lang r2 s2.
Proof.
  split; [inversion 1; subst; eauto|].
  intros (s1 & s2 & -> & H1 & H2). by constructor.
Qed.

Lemma lang_alt_inv (r1 r2 : regex) (s : list N) :
  lang (Alt r1 r2) s <-> lang r1 s \/ lang r2 s.
Proof.
  split; [inversion 1; subst; eauto|].
  intros [H|H]; [by apply lang_alt_l | by apply lang_alt_r].
Qed.

Lemma nullable_lang (r : regex) : nullable r = true <-> lang r [].
Proof.
  induction r as [| |p|r1 IH1 r2 IH2|r1 IH1 r2 IH2|r IH]; simpl.
  - rewrite lang_void_inv. done.
  - rewrite lang_eps_inv. done.
  - rewrite lang_class_inv. split; [done|]. by intros (c & [=] & _).
  - rewrite andb_true_iff, IH1, IH2, lang_seq_inv. split.
    + intros [H1 H2]. by exists [], [].
    + intros (s1 & s2 & Hs & H1 & H2). symmetry in Hs.
      apply app_eq_nil in Hs as [-> ->]. done.
  - by rewrite orb_true_iff, IH1, IH2, lang_alt_inv.
  - split; [constructor|done].
Qed.

(** A match of [r*] on a non-empty string starts with a non-empty match
    of [r]. *)
Lemma lang_star_cons (r : regex) (c : N) (s : list N) :
  lang (Star r) (c :: s) ->
  exists s1 s2, s = s1 ++ s2 /\ lang r (c :: s1) /\ lang (Star r) s2.
Proof.
  intros H. remember (Star r) as r' eqn:Hr. remember (c :: s) as t eqn:Ht.
  revert Hr Ht.
  induction H as [| | | | | |r0 s1 s2 H1 _ H2 IH2]; try discriminate.
  intros [= ->] Ht. destruct s1 as [|x s1]; simpl in Ht.
  - by apply IH2.
  - injection Ht as -> <-. by exists s1, s2.
Qed.

(** A match of [r1 r2] on a non-empty string either starts with a
    non-empty match of [r1], or lies in [r2] after an empty match of
    [r1]. *)
Lemma lang_seq_cons (r1 r2 : regex) (c : N) (s : list N) :
  lang (Seq r1 r2) (c :: s)
  <-> (exists s1 s2, s = s1 ++ s2 /\ lang r1 (c :: s1) /\ lang r2 s2)
      \/ (lang r1 [] /\ lang r2 (c :: s)).
Proof.
  rewrite lang_seq_inv. split.
  - intros (s1 & s2 & Hs & H1 & H2). destruct s1 as [|x s1]; simpl in Hs.
    + right. by subst.
    + injection Hs as <- ->. left. by exists s1, s2.
  - intros [(s1 & s2 & -> & H1 & H2)|[H1 H2]].
    + by exists (c :: s1), s2.
    + by exists [], (c :: s).
Qed.

Lemma deriv_lang (c : N) (r : regex) (s : list N) :
  lang (deriv c r) s <-> lang r (c :: s).
Proof.
  revert s. induction r as [| |p|r1 IH1 r2 IH2|r1 IH1 r2 IH2|r IH];
    intros s; simpl.
  - by rewrite !lang_void_inv.
  - rewrite lang_void_inv, lang_eps_inv. done.
  - rewrite lang_class_inv. destruct (p c) eqn:Hp.
    + rewrite lang_eps_inv. split.
      * intros ->. by exists c.
      * by intros (x & [= <- ->] & _).
    + rewrite lang_void_inv. split; [done|].
      intros (x & [= <- ->] & Hx). congruence.
  - assert (lang (Seq (deriv c r1) r2) s
            <-> exists s1 s2, s = s1 ++ s2 /\ lang r1 (c :: s1) /\ lang r2 s2)
      as Hseq.
    { rewrite lang_seq_inv. split.
      - intros (s1 & s2 & -> & H1 & H2). exists s1, s2. by rewrite <- IH1.
      - intros (s1 & s2 & -> & H1 & H2). exists s1, s2. by rewrite IH1. }
    rewrite lang_seq_cons. destruct (nullable r1) eqn:Hn.
    + apply nullable_lang in Hn. rewrite lang_alt_inv, Hseq, IH2. tauto.
    + rewrite Hseq. split; [by left|]. intros [H|[H _]]; [done|].
      apply nullable_lang in H. congruence.
  - by rewrite !lang_alt_inv, IH1, IH2.
  - rewrite lang_seq_inv. split.
    + intros (s1 & s2 & -> & H1 & H2).
      apply (lang_star_app _ (c :: s1) s2); [by apply IH|done].
    + intros H. apply lang_star_cons in H as (s1 & s2 & -> & H1 & H2).
      exists s1, s2. by rewrite IH.
Qed.

(** The derivative matcher decides the language of the pattern. *)
Lemma test_lang (r : regex) (s : list N) : test r s = true <-> lang r s.
Proof.
  unfold test. revert r. induction s as [|c s IH]; intros r; simpl.
  - apply nullable_lang.
  - rewrite IH. apply deriv_lang.
Qed.

Lemma lang_star_class (p : N -> bool) (s : list N) :
  lang (Star (Class p)) s <-> Forall (fun c => p c = true) s.
Proof.
  split.
  - intros H. remember (Star (Class p)) as r eqn:Hr. revert Hr.
    induction H as [| | | | | |r0 s1 s2 H1 _ H2 IH2]; try discriminate.
    + constructor.
    + intros [= ->]. apply lang_class_inv in H1 as (c & -> & Hc).
      constructor; [done|]. by apply IH2.
  - induction 1 as [|c s Hc _ IH]; [constructor|].
    apply (lang_star_app _ [c] s); [by constructor|done].
Qed.

Lemma lang_plus_class (p : N -> bool) (s : list N) :
  lang (Plus (Class p)) s <-> s <> [] /\ Forall (fun c => p c = true) s.
Proof.
  unfold Plus. rewrite lang_seq_inv. split.
  - intros (s1 & s2 & -> & H1 & H2).
    apply lang_class_inv in H1 as (c & -> & Hc). apply lang_star_class in H2.
    split; [done|]. by constructor.
  - intros [Hne Hall]. destruct Hall as [|c s Hc Hall]; [done|].
    exists [c], s. split_and!; [done|by constructor|by apply lang_star_class].
Qed.

Lemma lang_char (c : N) (s : list N) : lang (Char c) s <-> s = [c].
Proof.
  unfold Char. rewrite lang_class_inv. split.
  - intros (x & -> & Hx). by apply N.eqb_eq in Hx as ->.
  - intros ->. exists c. split; [done|]. apply N.eqb_refl.
Qed.

End RegexFacts.

Module ValidatorsFacts.
Import Text JS Regex RegexFacts Validators.

(** An address part: non-empty, without white space and without ['@']. *)
Definition addressPart (s : jsstring) : Prop :=
  s <> [] /\ Forall (fun c => isWhiteSpace c = false /\ c <> 64%N) s.

Lemma addressUnit_spec (c : N) :
  addressUnit c = true <-> isWhiteSpace c = false /\ c <> 64%N.
Proof.
  unfold addressUnit. rewrite negb_true_iff, orb_false_iff, N.eqb_neq. done.
Qed.

Lemma lang_addressPart (s : jsstring) :
  lang (Plus (Class addressUnit)) s <-> addressPart s.
Proof.
  rewrite lang_plus_class. unfold addressPart.
  split; intros [Hne Hall]; (split; [done|]);
    (eapply Forall_impl; [exact Hall|]); intros c; apply addressUnit_spec.
Qed.

Lemma validateEmail_parts (email : jsstring) :
  validateEmail email = true
  <-> exists name domain suffix,
        email = name ++ [64%N] ++ domain ++ [46%N] ++ suffix
        /\ addressPart name /\ addressPart domain /\ addressPart suffix.
Proof.
  unfold validateEmail, emailRegex. rewrite test_lang. split.
  - intros H.
    apply lang_seq_inv in H as (name & t1 & -> & Hname & H).
    apply lang_seq_inv in H as (at_ & t2 & -> & Hat & H).
    apply lang_seq_inv in H as (domain & t3 & -> & Hdomain & H).
    apply lang_seq_inv in H as (dot & suffix & -> & Hdot & Hsuffix).
    apply lang_char in Hat as ->. apply lang_char in Hdot as ->.
    exists name, domain, suffix. by rewrite <- !lang_addressPart.
  - intros (name & domain & suffix & -> & Hname & Hdomain & Hsuffix).
    apply lang_seq; [by apply lang_addressPart|].
    apply lang_seq; [by apply lang_char|].
    apply lang_seq; [by apply lang_addressPart|].
    apply lang_seq; [by apply lang_char|]. by apply lang_addressPart.
Qed.

Definition ats (s : jsstring) : nat :=
  length (List.filter (fun c => (c =? 64)%N) s).

Lemma addressPart_no_at (s : jsstring) : addressPart s -> ats s = 0.
Proof.
  intros [_ Hall]. unfold ats.
  induction Hall as [|c s [_ Hc] _ IH]; simpl; [done|].
  by rewrite (proj2 (N.eqb_neq c 64) Hc).
Qed.

Lemma ats_app (s t : jsstring) : ats (s ++ t) = ats s + ats t.
Proof. unfold ats. by rewrite List.filter_app, length_app. Qed.

(** [validateEmail] accepts exactly the strings of the form
    [name@domain.suffix] whose three parts are non-empty and hold neither
    white space nor ['@'] (the domain may hold further dots); an accepted
    address has exactly one ['@'], no white space and at least five code
    units. *)
Theorem validateEmail_spec (email : jsstring) :
  (validateEmail email = true
   <-> exists name domain suffix,
         email = name ++ [64%N] ++ domain ++ [46%N] ++ suffix
         /\ addressPart name /\ addressPart domain /\ addressPart suffix)
  /\ (validateEmail email = true ->
      ats email = 1
      /\ Forall (fun c => isWhiteSpace c = false) email
      /\ 5 <= length email).
Proof.
  split; [apply validateEmail_parts|].
  intros H. apply validateEmail_parts in H
    as (name & domain & suffix & -> & Hn & Hd & Hs).
  split_and!.
  - rewrite !ats_app, (addressPart_no_at _ Hn), (addressPart_no_at _ Hd),
      (addressPart_no_at _ Hs). reflexivity.
  - destruct Hn as [_ Hn], Hd as [_ Hd], Hs as [_ Hs].
    rewrite !Forall_app. split_and!.
    + eapply Forall_impl; [exact Hn|]. by intros c [? _].
    + by repeat constructor.
    + eapply Forall_impl; [exact Hd|]. by intros c [? _].
    + by repeat constructor.
    + eapply Forall_impl; [exact Hs|]. by intros c [? _].
  - destruct Hn as [Hn _], Hd as [Hd _], Hs as [Hs _].
    rewrite !length_app. simpl.
    destruct name; [done|]. destruct domain; [done|]. destruct suffix; [done|].
    simpl. lia.
Qed.

Example validateEmail_accepts :
  validateEmail (lit "ann@mail.example.org") = true.
Proof. reflexivity. Qed.

Example validateEmail_two_ats : validateEmail (lit "a@b@c.d") = false.
Proof. reflexivity. Qed.

Example validateEmail_no_dot : validateEmail (lit "ann@localhost") = false.
Proof. reflexivity. Qed.

End ValidatorsFacts.

Module TimeHelpersFacts.
Import Text JS TimeHelpers.

(** Bounds on a quotient by a positive constant, from the division
    equation. *)
Ltac whole x d :=
  let Hq := fresh in let Hr := fresh in
  pose proof (Z.div_mod x d ltac:(lia)) as Hq;
  pose proof (Z.mod_pos_bound x d ltac:(lia)) as Hr;
  lia.

(** [formatTimeAgo] on a valid date: a date less than a minute old, or
    in the future, reads ["Just now"]; otherwise the text counts 1 to 59
    whole minutes, 1 to 23 whole hours or 1 to 6 whole days, and from
    seven days on it is the formatted date.  An invalid date gives the
    formatted date. *)
Theorem formatTimeAgo_bands (now then_ : Z) (formatted : jsstring) :
  let seconds := ((now - then_) / 1000)%Z in
  let text := formatTimeAgo now (Some then_) formatted in
  ((now - then_ < 60000)%Z /\ text = lit "Just now")
  \/ (exists n, (1 <= n <= 59)%Z /\ n = (seconds / 60)%Z
        /\ text = showZ n ++ lit " minutes ago")
  \/ (exists n, (1 <= n <= 23)%Z /\ n = (seconds / 3600)%Z
        /\ text = showZ n ++ lit " hours ago")
  \/ (exists n, (1 <= n <= 6)%Z /\ n = (seconds / 86400)%Z
        /\ text = showZ n ++ lit " days ago")
  \/ ((604800000 <= now - then_)%Z /\ text = formatted).
Proof.
  intros seconds text. subst text. unfold formatTimeAgo. fold seconds.
  assert ((now - then_ = 1000 * seconds + (now - then_) mod 1000)%Z
          /\ (0 <= (now - then_) mod 1000 < 1000)%Z) as [Hdiv Hmod].
  { split; [apply Z.div_mod; lia | apply Z.mod_pos_bound; lia]. }
  destruct (seconds <? 60)%Z eqn:H1.
  { left. apply Z.ltb_lt in H1. split; [lia|done]. }
  apply Z.ltb_ge in H1. right.
  destruct (seconds <? 3600)%Z eqn:H2.
  { left. apply Z.ltb_lt in H2. eexists. split; [|split; reflexivity].
    whole seconds 60%Z. }
  apply Z.ltb_ge in H2. right.
  destruct (seconds <? 86400)%Z eqn:H3.
  { left. apply Z.ltb_lt in H3. eexists. split; [|split; reflexivity].
    whole seconds 3600%Z. }
  apply Z.ltb_ge in H3. right.
  destruct (seconds <? 604800)%Z eqn:H4.
  { left. apply Z.ltb_lt in H4. eexists. split; [|split; reflexivity].
    whole seconds 86400%Z. }
  apply Z.ltb_ge in H4. right. split; [lia|done].
Qed.

Example formatTimeAgo_ninety_seconds :
  formatTimeAgo 1762084890000 (Some 1762084800000%Z) (lit "Nov 2, 2025")
  = lit "1 minutes ago".
Proof. reflexivity. Qed.

Example formatTimeAgo_future :
  formatTimeAgo 1762084800000 (Some 1762088400000%Z) (lit "Nov 2, 2025")
  = lit "Just now".
Proof. reflexivity. Qed.

End TimeHelpersFacts.

Module AnalysisHistoryViewFacts.
Import AnalysisHistoryView.

Lemma slice0_length {A} (l : list A) (end_ : Z) :
  length (slice0 l end_) <= length l.
Proof. unfold slice0. destruct (end_ <? 0)%Z; rewrite length_take; lia. Qed.

(** In the list of recent analyses of the web client, entries are left
    out only under a footer: whenever the list is rendered without the
    "Show More" / "Show Less" footer, it shows the whole history.  The
    entries shown are never more than the history holds. *)
Theorem displayHistory_complete {A} (showAllItems isLoading : bool)
    (maxItems : Z) (analysisHistory : list A) :
  listShown isLoading analysisHistory = true ->
  footerShown isLoading maxItems analysisHistory = false ->
  displayHistory showAllItems maxItems analysisHistory = analysisHistory.
Proof.
  unfold listShown, footerShown, displayHistory, slice0.
  intros Hshown Hfooter. rewrite Hshown in Hfooter. simpl in Hfooter.
  apply Z.ltb_ge in Hfooter. destruct showAllItems; [done|].
  rewrite (proj2 (Z.ltb_ge maxItems 0)) by lia.
  apply take_ge. lia.
Qed.

Lemma displayHistory_complete_witness :
  displayHistory false 4 [1; 2; 3] = [1; 2; 3].
Proof.
  apply (displayHistory_complete false false 4 [1; 2; 3]); reflexivity.
Defined.

(** With the default of four items a longer history is cut to its first
    four entries, under a footer. *)
Example displayHistory_cut :
  displayHistory false 4 [1; 2; 3; 4; 5; 6] = [1; 2; 3; 4]
  /\ footerShown false 4 [1; 2; 3; 4; 5; 6] = true.
Proof. split; reflexivity. Qed.

End AnalysisHistoryViewFacts.

Module AnalyzeScreenFacts.
Import Text JS TextFacts TrimFacts ValidationFacts AnalyzeScreen.

Section Runtime.
Variable typeErrorMessage : jsstring.
Variable crisis : jsval -> settled bool.

Let run := handleAnalyze typeErrorMessage crisis.

Lemma truthy_nil : truthy (JStr []) = false.
Proof. unfold truthy. by rewrite bool_decide_eq_true_2. Qed.

Lemma truthy_cons (c : N) (t : jsstring) : truthy (JStr (c :: t)) = true.
Proof. unfold truthy. by rewrite bool_decide_eq_false_2. Qed.

Lemma handleAnalyze_refused (server : settled jsval) (st : state) :
  ~ (1 <= length (trim (message st)) <= 5000) ->
  exists title text, run server st = (st, [Alert title text]).
Proof.
  intros Hno. unfold run, handleAnalyze.
  destruct (trim (message st)) as [|c t] eqn:Ht.
  - rewrite truthy_nil. cbn [negb]. eauto.
  - rewrite truthy_cons. cbn [negb].
    assert ((5000 <? length (c :: t)) = true) as ->; [|eauto].
    apply Nat.ltb_lt. simpl in *. lia.
Qed.

Lemma handleAnalyze_sent (server : settled jsval) (st : state) :
  1 <= length (trim (message st)) <= 5000 ->
  exists rest, (run server st).2 = AnalyzeMessage (trim (message st)) :: rest
    /\ Forall (fun e => match e with
                        | AnalyzeMessage _ | Alert _ _ => False
                        | AddAnalysis m d =>
                            m = trim (message st) /\ server = Resolved d
                        | CrisisAlert => True
                        end) rest.
Proof.
  intros [Hlo Hhi]. unfold run, handleAnalyze.
  destruct (trim (message st)) as [|c t] eqn:Ht; [simpl in Hlo; lia|].
  rewrite truthy_cons. cbn [negb].
  assert ((5000 <? length (c :: t)) = false) as ->.
  { apply Nat.ltb_ge. lia. }
  destruct server as [data|err]; [|by eexists].
  destruct (nullish data); [by eexists|].
  destruct (crisis data) as [[]|]; eexists; (split; [reflexivity|]);
    repeat constructor.
Qed.

(** The analyze screen of the mobile client sends a message to the
    server exactly when its trimmed text has between 1 and 5000 code
    units, whatever the server answers; what it sends, and what it files
    in the history, is the trimmed text, so every request is within the
    bound of the analyze endpoint and carries no white space at its
    ends.  A refused message changes nothing and raises one alert. *)
Theorem handleAnalyze_sends_trimmed (server : settled jsval) (st : state) :
  ((exists m, AnalyzeMessage m ∈ (run server st).2)
     <-> 1 <= length (trim (message st)) <= 5000)
  /\ (forall m, AnalyzeMessage m ∈ (run server st).2 ->
        m = trim (message st) /\ trim m = m /\ 1 <= length m <= 5000)
  /\ (forall m d, AddAnalysis m d ∈ (run server st).2 ->
        m = trim (message st) /\ server = Resolved d)
  /\ (~ (1 <= length (trim (message st)) <= 5000) ->
      (run server st).1 = st /\ length (run server st).2 = 1).
Proof.
  assert (1 <= length (trim (message st)) <= 5000
          \/ ~ (1 <= length (trim (message st)) <= 5000)) as [Hin|Hout] by lia.
  - destruct (handleAnalyze_sent server st Hin) as (rest & Heff & Hrest).
    rewrite Heff. split_and!.
    + split; [done|]. intros _. eexists. apply list_elem_of_here.
    + intros m Hm. apply elem_of_cons in Hm as [[= ->]|Hm].
      * split_and!; [done|apply trim_idemp|lia..].
      * exfalso. exact (proj1 (Forall_forall _ _) Hrest _ Hm).
    + intros m d Hm. apply elem_of_cons in Hm as [[=]|Hm].
      exact (proj1 (Forall_forall _ _) Hrest _ Hm).
    + done.
  - destruct (handleAnalyze_refused server st Hout) as (title & text & Heq).
    rewrite Heq. simpl. split_and!.
    + split; [|done]. intros (m & Hm).
      apply list_elem_of_singleton in Hm. discriminate.
    + intros m Hm. apply list_elem_of_singleton in Hm. discriminate.
    + intros m d Hm. apply list_elem_of_singleton in Hm. discriminate.
    + done.
Qed.

End Runtime.

(** A message of 5000 characters between spaces is sent, trimmed. *)
Example handleAnalyze_padded :
  (handleAnalyze [] (fun _ => Resolved false) (Rejected (Error []))
     {| message := lit " " ++ replicate 5000 97%N ++ lit " ";
        result := None; loading := false; error := None |}).2
  = [AnalyzeMessage (replicate 5000 97%N)].
Proof. vm_compute. reflexivity. Qed.

End AnalyzeScreenFacts.

Module HistoryFacts.
Import Text JS AnalysisContext AnalysisContextFacts.

(** *** Ids *)

Lemma showUint_nonempty (u : Decimal.uint) : u <> Decimal.Nil -> showUint u <> [].
Proof. by destruct u. Qed.

Lemma showUint_inj (u v : Decimal.uint) : showUint u = showUint v -> u = v.
Proof.
  revert v. induction u as [|u IH|u IH|u IH|u IH|u IH|u IH|u IH|u IH|u IH|u IH];
    intros [|v|v|v|v|v|v|v|v|v|v]; simpl; intros H; try discriminate;
    try done; injection H as H; f_equal; by apply IH.
Qed.

Lemma showUint_digits (u : Decimal.uint) :
  Forall (fun c => (48 <= c <= 57)%N) (showUint u).
Proof.
  induction u; simpl; constructor; try done; unfold digit; lia.
Qed.

Lemma showZ_nonempty (z : Z) : showZ z <> [].
Proof.
  destruct z as [|p|p]; simpl; [done| |done].
  apply showUint_nonempty, Unsigned.to_uint_nonnil.
Qed.

Lemma showZ_inj (x y : Z) : showZ x = showZ y -> x = y.
Proof.
  assert (forall p, showN (N.pos p) <> [digit 0]) as Hzero.
  { intros p H. change [digit 0] with (showUint (Decimal.D0 Decimal.Nil)) in H.
    apply showUint_inj in H. by apply (Unsigned.to_uint_nonzero p). }
  assert (forall p q, showN (N.pos p) <> 45%N :: q) as Hminus.
  { intros p q H. pose proof (showUint_digits (N.to_uint (N.pos p))) as Hd.
    unfold showN in H. rewrite H in Hd. inversion Hd; subst. lia. }
  destruct x as [|p|p], y as [|q|q]; simpl; intros H; try done.
  - symmetry in H. by apply Hzero in H.
  - by apply Hzero in H.
  - apply showUint_inj, Unsigned.to_uint_inj in H. by subst.
  - by apply Hminus in H.
  - symmetry in H. by apply Hminus in H.
  - injection H as H. apply showUint_inj, Unsigned.to_uint_inj in H. by subst.
Qed.

Lemma newEntry_truthy (clk : clock) (message : jsstring) (r : result) :
  scalarTruthy (analysis_id (newEntry clk message r)) = true.
Proof.
  unfold newEntry. cbn [analysis_id].
  destruct (scalarTruthy (r_analysis_id r)) eqn:Hr; [done|].
  cbn [scalarTruthy]. apply negb_true_iff, bool_decide_eq_false, showZ_nonempty.
Qed.

(** An analysis that comes without id is filed under the millisecond of
    the call: two such analyses get the same id exactly when they are
    added in the same millisecond, and then the second one is not
    stored. *)
Theorem addAnalysis_clock_ids (clk1 clk2 : clock) (m1 m2 : jsstring)
    (r1 r2 : result) (st : state) :
  scalarTruthy (r_analysis_id r1) = false ->
  scalarTruthy (r_analysis_id r2) = false ->
  (analysis_id (newEntry clk1 m1 r1) = analysis_id (newEntry clk2 m2 r2)
   <-> dateNow clk1 = dateNow clk2)
  /\ (dateNow clk1 = dateNow clk2 ->
      addAnalysis clk2 m2 r2 (addAnalysis clk1 m1 r1 st)
      = addAnalysis clk1 m1 r1 st).
Proof.
  intros H1 H2.
  assert (analysis_id (newEntry clk1 m1 r1) = analysis_id (newEntry clk2 m2 r2)
          <-> dateNow clk1 = dateNow clk2) as Hiff.
  { unfold newEntry. cbn [analysis_id]. rewrite H1, H2. split.
    - intros [= H]. by apply showZ_inj.
    - by intros ->. }
  split; [done|]. intros Hsame. apply Hiff in Hsame.
  unfold addAnalysis. cbn [analysisHistory isLoading error]. f_equal.
  apply addEntry_duplicate. rewrite <- Hsame.
  set (e := newEntry clk1 m1 r1). set (h := analysisHistory st).
  destruct (decide (analysis_id e ∈ ids h)) as [Hin|Hout].
  - by rewrite addEntry_duplicate.
  - rewrite addEntry_fresh by done. simpl. apply list_elem_of_here.
Qed.

Definition withoutId : result :=
  {| r_analysis_id := SUndefined; r_sentiment := JStr (lit "neutral");
     r_confidence := JNum 1; r_emotions := JNull;
     r_emoji_analysis := JNull; r_timestamp := JUndefined |}.

Lemma addAnalysis_clock_ids_witness :
  addAnalysis noon (lit "second") withoutId
    (addAnalysis noon (lit "first") withoutId initial)
  = addAnalysis noon (lit "first") withoutId initial.
Proof.
  apply (addAnalysis_clock_ids noon noon (lit "first") (lit "second")
           withoutId withoutId initial); reflexivity.
Defined.

(** *** Adding *)

Lemma addEntry_member (e : entry) (h : list entry) :
  analysis_id e ∈ ids (addEntry e h).
Proof.
  destruct (decide (analysis_id e ∈ ids h)) as [Hin|Hout].
  - by rewrite addEntry_duplicate.
  - rewrite addEntry_fresh by done. simpl. apply list_elem_of_here.
Qed.

Lemma addEntry_same_iff (e : entry) (h : list entry) :
  addEntry e h = h <-> analysis_id e ∈ ids h.
Proof.
  split; [|apply addEntry_duplicate].
  intros Hsame. destruct (decide (analysis_id e ∈ ids h)) as [Hin|Hout]; [done|].
  rewrite addEntry_fresh in Hsame by done.
  change (take 100 (e :: h)) with (e :: take 99 h) in Hsame.
  rewrite <- Hsame. simpl. apply list_elem_of_here.
Qed.

Lemma addEntry_ids (x : scalar) (e : entry) (h : list entry) :
  x ∈ ids (addEntry e h) -> x = analysis_id e \/ x ∈ ids h.
Proof.
  unfold ids. intros Hx. apply list_elem_of_fmap in Hx as (a & -> & Ha).
  pose proof (elem_of_sublist _ _ _ Ha (addEntry_sublist e h)) as Hin.
  apply elem_of_cons in Hin as [-> | Hin]; [by left|].
  right. apply list_elem_of_fmap. by exists a.
Qed.

Lemma newEntry_id_given (clk : clock) (m : jsstring) (r : result) :
  scalarTruthy (r_analysis_id r) = true ->
  analysis_id (newEntry clk m r) = r_analysis_id r.
Proof. intros H. unfold newEntry. cbn [analysis_id]. by rewrite H. Qed.

Lemma newEntry_id_clock (clk : clock) (m : jsstring) (r : result) :
  scalarTruthy (r_analysis_id r) = false ->
  analysis_id (newEntry clk m r) = SStr (showZ (dateNow clk)).
Proof. intros H. unfold newEntry. cbn [analysis_id]. by rewrite H. Qed.

(** An analysis that carries an id is stored once: adding it again, at
    any time and under any message, changes nothing.  An analysis
    without id is filed under the millisecond of each call: adding it
    again changes nothing exactly when the id of the second call is in
    the history already, and at another millisecond whose id is unused a
    second entry for it is put at the front. *)
Theorem addAnalysis_again (clk1 clk2 : clock) (m1 m2 : jsstring)
    (r : result) (st : state) :
  let once := addAnalysis clk1 m1 r st in
  let twice := addAnalysis clk2 m2 r once in
  (scalarTruthy (r_analysis_id r) = true -> twice = once)
  /\ (scalarTruthy (r_analysis_id r) = false ->
      (twice = once
       <-> SStr (showZ (dateNow clk2)) ∈ ids (analysisHistory once))
      /\ (dateNow clk1 <> dateNow clk2 ->
          SStr (showZ (dateNow clk2)) ∉ ids (analysisHistory st) ->
          analysisHistory twice
          = take 100 (newEntry clk2 m2 r :: analysisHistory once)
          /\ twice <> once)).
Proof.
  intros once twice.
  set (e1 := newEntry clk1 m1 r). set (e2 := newEntry clk2 m2 r).
  assert (analysisHistory once = addEntry e1 (analysisHistory st)) as Honce
    by done.
  assert (analysisHistory twice = addEntry e2 (analysisHistory once)) as Htwice
    by done.
  assert (twice = once <-> analysis_id e2 ∈ ids (analysisHistory once))
    as Hiff.
  { rewrite <- addEntry_same_iff, <- Htwice. split; [by intros ->|].
    intros H. unfold twice, addAnalysis in *.
    cbn [analysisHistory isLoading error] in *. by rewrite H. }
  split.
  - intros Hid. apply Hiff. rewrite Honce.
    replace (analysis_id e2) with (analysis_id e1).
    + apply addEntry_member.
    + unfold e1, e2. by rewrite !newEntry_id_given.
  - intros Hnone.
    pose proof (newEntry_id_clock clk1 m1 r Hnone) as Hid1.
    pose proof (newEntry_id_clock clk2 m2 r Hnone) as Hid2.
    fold e1 in Hid1. fold e2 in Hid2. rewrite Hid2 in Hiff.
    split; [done|]. intros Hclk Hunused.
    assert (SStr (showZ (dateNow clk2)) ∉ ids (analysisHistory once))
      as Hfresh.
    { rewrite Honce. intros Hin. apply addEntry_ids in Hin as [Heq|Hin].
      - rewrite Hid1 in Heq. injection Heq as Heq.
        apply showZ_inj in Heq. by apply Hclk.
      - by apply Hunused. }
    split.
    + rewrite Htwice. apply addEntry_fresh. by rewrite Hid2.
    + intros Hsame. by apply Hfresh, Hiff.
Qed.

Definition justAfterNoon : clock :=
  {| dateNow := 1762084800001; isoNow := lit "2025-11-02T12:00:00.001Z" |}.

Lemma addAnalysis_again_witness :
  addAnalysis justAfterNoon (lit "hello") withoutId
    (addAnalysis noon (lit "hello") withoutId initial)
  <> addAnalysis noon (lit "hello") withoutId initial.
Proof.
  pose proof (addAnalysis_again noon justAfterNoon (lit "hello") (lit "hello")
                withoutId initial) as H.
  cbv zeta in H. destruct H as [_ H]. destruct (H eq_refl) as [_ Hlater].
  apply Hlater.
  - discriminate.
  - apply not_elem_of_nil.
Defined.

(** On a full history of 100 entries a new analysis takes the front and
    the oldest entry, the last one, is dropped. *)
Theorem addEntry_evicts_oldest (e oldest : entry) (h : list entry) :
  length h = 100 -> NoDup (ids h) -> analysis_id e ∉ ids h ->
  last h = Some oldest ->
  addEntry e h = e :: take 99 h
  /\ length (addEntry e h) = 100
  /\ analysis_id oldest ∉ ids (addEntry e h).
Proof.
  intros Hlen Hnd Hfresh Hlast. rewrite addEntry_fresh by done.
  change (take 100 (e :: h)) with (e :: take 99 h).
  split_and!; [done|simpl; rewrite length_take; lia|].
  assert (h = take 99 h ++ [oldest]) as Hh.
  { rewrite <- (take_drop 99 h) at 1. f_equal.
    rewrite last_lookup, Hlen in Hlast. simpl in Hlast.
    apply drop_S in Hlast. rewrite Hlast, drop_ge by lia. done. }
  rewrite Hh in Hnd, Hfresh. unfold ids in *. rewrite fmap_app in Hnd, Hfresh.
  apply NoDup_app in Hnd as (_ & Hdis & _). simpl.
  intros Hin. apply elem_of_cons in Hin as [Heq|Hin].
  - apply Hfresh. rewrite <- Heq. apply elem_of_app. right.
    apply list_elem_of_here.
  - apply (Hdis _ Hin). apply list_elem_of_here.
Qed.

(** A history filled by 100 analyses with the ids 0 to 99, id 99 last
    added. *)
Definition numbered (n : nat) : call :=
  {| c_clock := noon; c_message := lit "entry";
     c_result := sampleResult (showZ (Z.of_nat n)) |}.

Definition fullHistory : list entry :=
  analysisHistory (run (numbered <$> seq 0 100) initial).

Lemma addEntry_evicts_oldest_witness :
  analysis_id (callEntry (numbered 0))
    ∉ ids (addEntry (callEntry (numbered 100)) fullHistory).
Proof.
  apply (addEntry_evicts_oldest (callEntry (numbered 100))
           (callEntry (numbered 0)) fullHistory).
  - by vm_compute.
  - apply (run_bounded (numbered <$> seq 0 100) initial).
    split; [simpl; lia | constructor].
  - assert (bool_decide (analysis_id (callEntry (numbered 100))
                           ∉ ids fullHistory) = true) as Hfresh
      by (by vm_compute).
    by apply bool_decide_eq_true in Hfresh.
  - by vm_compute.
Defined.

Lemma run_length (calls : list call) :
  length (analysisHistory (run calls initial)) <= length calls.
Proof.
  induction calls as [|c calls IH] using rev_ind; [done|].
  rewrite run_snoc, length_app. simpl.
  pose proof (sublist_length _ _
                (addEntry_sublist (callEntry c)
                   (analysisHistory (run calls initial)))) as Hlen.
  unfold callEntry in Hlen. simpl in Hlen. lia.
Qed.

(** Below the capacity nothing is lost: after at most 100 calls of
    [addAnalysis] on the empty history, the analysis of every call is in
    the history under its id. *)
Theorem run_keeps_all (calls : list call) :
  length calls <= 100 ->
  forall c, c ∈ calls ->
    analysis_id (callEntry c) ∈ ids (analysisHistory (run calls initial)).
Proof.
  induction calls as [|c0 calls IH] using rev_ind; intros Hlen c Hc.
  - by apply elem_of_nil in Hc.
  - rewrite length_app in Hlen. simpl in Hlen. rewrite run_snoc.
    change (analysisHistory
              (addAnalysis (c_clock c0) (c_message c0) (c_result c0)
                 (run calls initial)))
      with (addEntry (callEntry c0) (analysisHistory (run calls initial))).
    set (h := analysisHistory (run calls initial)) in *.
    apply elem_of_app in Hc as [Hc|Hc].
    + assert (analysis_id (callEntry c) ∈ ids h) as Hin by (apply IH; [lia|done]).
      destruct (decide (analysis_id (callEntry c0) ∈ ids h)) as [Hdup|Hfresh].
      * by rewrite addEntry_duplicate.
      * rewrite addEntry_fresh by done. rewrite take_ge.
        -- simpl. by apply list_elem_of_further.
        -- pose proof (run_length calls). simpl. fold h in H. lia.
    + apply list_elem_of_singleton in Hc as ->. apply addEntry_member.
Qed.

Definition firstCall : call :=
  {| c_clock := noon; c_message := lit "great day";
     c_result := sampleResult (lit "a1") |}.

Lemma run_keeps_all_witness :
  analysis_id (callEntry firstCall)
    ∈ ids (analysisHistory (run sampleCalls initial)).
Proof.
  apply (run_keeps_all sampleCalls); [simpl; lia|]. apply list_elem_of_here.
Defined.

(** *** Removing *)

Lemma filter_other_fresh (id : scalar) (h : list entry) :
  id ∉ ids h ->
  List.filter (fun a => negb (bool_decide (analysis_id a = id))) h = h.
Proof.
  induction h as [|a h IH]; simpl; [done|]. intros Hout.
  apply not_elem_of_cons in Hout as [Hne Hout].
  rewrite bool_decide_eq_false_2 by done. simpl. by rewrite IH.
Qed.

(** Adding an analysis and deleting it again restores the context, as
    long as its id was new and the history held fewer than 100
    entries. *)
Theorem add_remove_round_trip (clk : clock) (message : jsstring)
    (r : result) (v : jsval) (st : state) :
  analysis_id (newEntry clk message r) ∉ ids (analysisHistory st) ->
  length (analysisHistory st) < 100 ->
  (removeAnalysis (Resolved v) (analysis_id (newEntry clk message r))
     (addAnalysis clk message r st)).1 = st.
Proof.
  intros Hfresh Hlen. destruct st as [h loading err]. simpl in *.
  f_equal. rewrite addEntry_fresh by done. rewrite take_ge by (simpl; lia).
  simpl. rewrite bool_decide_eq_true_2 by done. simpl.
  by apply filter_other_fresh.
Qed.

Lemma add_remove_round_trip_witness :
  (removeAnalysis (Resolved JNull) (SStr (lit "c3"))
     (addAnalysis noon (lit "new") (sampleResult (lit "c3"))
        (run sampleCalls initial))).1
  = run sampleCalls initial.
Proof.
  apply (add_remove_round_trip noon (lit "new") (sampleResult (lit "c3"))
           JNull (run sampleCalls initial)).
  - assert (bool_decide (SStr (lit "c3")
                           ∉ ids (analysisHistory (run sampleCalls initial)))
            = true) as H by (by vm_compute).
    by apply bool_decide_eq_true in H.
  - vm_compute. lia.
Defined.

Lemma filter_removes_one (a : entry) (h : list entry) :
  NoDup (ids h) -> a ∈ h ->
  exists before after,
    h = before ++ a :: after
    /\ List.filter (fun b => negb (bool_decide (analysis_id b = analysis_id a))) h
       = before ++ after.
Proof.
  intros Hnd Hin. apply list_elem_of_split in Hin as (before & after & ->).
  exists before, after. split; [done|].
  unfold ids in Hnd. rewrite fmap_app, fmap_cons in Hnd.
  apply NoDup_app in Hnd as (_ & Hdis & Hnd).
  apply NoDup_cons in Hnd as [Hafter _].
  rewrite List.filter_app. simpl. rewrite bool_decide_eq_true_2 by done. simpl.
  rewrite !filter_other_fresh; [done|done|].
  intros Hb. apply (Hdis _ Hb). apply list_elem_of_here.
Qed.

Lemma run_truthy (calls : list call) :
  Forall (fun a => scalarTruthy (analysis_id a) = true)
         (analysisHistory (run calls initial)).
Proof.
  apply Forall_forall. intros a Ha.
  pose proof (elem_of_sublist _ _ _ Ha (run_recent_first calls)) as Hin.
  rewrite elem_of_reverse in Hin.
  apply list_elem_of_fmap in Hin as (c & -> & _). apply newEntry_truthy.
Qed.

(** Deleting an entry of a history that [addAnalysis] built, from the
    history screen: when the server delete succeeds exactly that entry
    goes, the others keep their order, and the dialog closes; when it
    fails the history is as before, the context records the message, the
    screen shows one alert and closes the dialog, and nothing is thrown
    further. *)
Theorem handleDelete_entry (calls : list call) (a : entry) :
  let ctx := run calls initial in
  a ∈ analysisHistory ctx ->
  (forall v, exists before after,
      analysisHistory ctx = before ++ a :: after
      /\ HistoryScreen.handleDelete (Resolved v) (analysis_id a) ctx
         = ({| analysisHistory := before ++ after;
               isLoading := isLoading ctx; error := error ctx |},
            SNull, []))
  /\ (forall err,
        HistoryScreen.handleDelete (Rejected err) (analysis_id a) ctx
        = ({| analysisHistory := analysisHistory ctx;
              isLoading := isLoading ctx; error := Some (JS.message err) |},
           SNull,
           [HistoryScreen.Alert (lit "Error")
              (lit "Failed to delete analysis")])).
Proof.
  intros ctx Ha.
  assert (scalarTruthy (analysis_id a) = true) as Htruthy.
  { exact (proj1 (Forall_forall _ _) (run_truthy calls) a Ha). }
  split.
  - intros v.
    destruct (filter_removes_one a (analysisHistory ctx))
      as (before & after & Hh & Hfilter); [|done|].
    { apply (run_bounded calls initial). split; [simpl; lia|constructor]. }
    exists before, after. split; [done|].
    unfold HistoryScreen.handleDelete. rewrite Htruthy. simpl.
    by rewrite Hfilter.
  - intros err. unfold HistoryScreen.handleDelete. by rewrite Htruthy.
Qed.

Lemma handleDelete_entry_witness :
  exists before after,
    analysisHistory (run sampleCalls initial)
    = before ++ callEntry firstCall :: after
    /\ HistoryScreen.handleDelete (Resolved JNull)
         (analysis_id (callEntry firstCall)) (run sampleCalls initial)
       = ({| analysisHistory := before ++ after;
             isLoading := false; error := None |}, SNull, []).
Proof.
  apply (handleDelete_entry sampleCalls (callEntry firstCall)).
  apply list_elem_of_further, list_elem_of_here.
Defined.

(** An empty delete target does nothing. *)
Example handleDelete_no_target :
  HistoryScreen.handleDelete (Resolved JNull) SNull (run sampleCalls initial)
  = (run sampleCalls initial, SNull, []).
Proof. reflexivity. Qed.

End HistoryFacts.

Module ClientFacts.
Import Text JS Http TextFacts HttpFacts.

Section Clients.
Variable eng : engine.
Variables pathname tokenKey userKey : jsstring.

Let web := WebApi.request eng pathname.
Let mobile := MobileApi.request tokenKey userKey eng.

(** The three kinds of message the [catch] block of the mobile client
    lets out. *)
Definition classified (m : jsstring) : Prop :=
  m = lit "UNAUTHORIZED"
  \/ startsWith (lit "HTTP") m = true
  \/ startsWith (lit "Network error: ") m = true.

Lemma rethrow_classified (e : jserror) :
  classified (message (MobileApi.rethrow e)).
Proof.
  unfold MobileApi.rethrow, classified. case_bool_decide as Hu; [by left|].
  destruct (startsWith (lit "HTTP") (message e)) eqn:Hh; [by right; left|].
  right. right. apply startsWith_spec. by eexists.
Qed.

(** Every error of the mobile client leaves through its [catch] block. *)
Lemma mobile_rejected_rethrown (fetched : settled response) (e : jserror) :
  (mobile fetched).2 = Rejected e -> exists e0, e = MobileApi.rethrow e0.
Proof.
  unfold mobile, MobileApi.request.
  destruct fetched as [r|e1]; [|cbn [snd]; intros [= <-]; by eexists].
  destruct (status r =? 401)%N; [cbn [snd]; intros [= <-]; by eexists|].
  cbv zeta. destruct (_ || _).
  { destruct (negb (ok r)); cbn [snd]; [intros [= <-]; by eexists|done]. }
  destruct (if includes _ _ then _ else _) as [data|];
    [|cbn [snd]; intros [= <-]; by eexists].
  destruct (negb (ok r)); cbn [snd]; [intros [= <-]; by eexists|done].
Qed.

(** Every error the mobile client throws, for a failed fetch or for a
    response, carries the message ["UNAUTHORIZED"], or a message that
    starts with ["HTTP"], or one that starts with ["Network error: "]. *)
Theorem mobile_errors_classified (fetched : settled response) :
  match (mobile fetched).2 with
  | Rejected e => classified (message e)
  | Resolved _ => True
  end.
Proof.
  destruct (mobile fetched).2 as [v|e] eqn:He; [done|].
  apply mobile_rejected_rethrown in He as (e0 & ->).
  apply rethrow_classified.
Qed.

(** Neither client resolves a call whose response is not 2xx, or whose
    fetch failed: a value is returned only for a successful response. *)
Theorem requests_resolve_on_success (fetched : settled response) :
  (forall v, (web fetched).2 = Resolved v ->
     exists r, fetched = Resolved r /\ ok r = true /\ (web fetched).1 = [])
  /\ (forall v, (mobile fetched).2 = Resolved v ->
        exists r, fetched = Resolved r /\ ok r = true
                  /\ (mobile fetched).1 = []).
Proof.
  split; intros v; destruct fetched as [r|e]; try done.
  - unfold web, WebApi.request.
    destruct (match contentType r with Some _ => _ | None => _ end)
      as [result|]; [|done].
    destruct (ok r) eqn:Hok; simpl; [by eauto|].
    by destruct (WebApi.errorMessage result).
  - unfold mobile, MobileApi.request.
    destruct (status r =? 401)%N; [done|]. simpl.
    destruct (_ || _).
    + destruct (ok r) eqn:Hok; simpl; [by eauto|done].
    + destruct (if includes _ _ then _ else _) as [data|]; [|done].
      destruct (ok r) eqn:Hok; simpl; [by eauto|done].
Qed.

(** The stored session is cleared on status 401 and on no other
    outcome.  The mobile client clears both keys for every 401 response.
    The web client clears them once it has read the body, and leaves the
    login page alone when the browser is already there; a 401 response
    announced as JSON whose body is no JSON fails on parsing, before the
    session is touched. *)
Theorem session_cleared_on_401 (fetched : settled response) :
  ((mobile fetched).1 = [MobileApi.MultiRemove [tokenKey; userKey]]
   <-> exists r, fetched = Resolved r /\ status r = 401%N)
  /\ ((mobile fetched).1 = []
      \/ (mobile fetched).1 = [MobileApi.MultiRemove [tokenKey; userKey]])
  /\ ((web fetched).1 <> [] ->
      exists r, fetched = Resolved r /\ status r = 401%N
        /\ (web fetched).1 = WebApi.onUnauthorized pathname)
  /\ (forall r, fetched = Resolved r -> status r = 401%N ->
        announcesJson r -> bodyJson r = None -> (web fetched).1 = [])
  /\ (forall r v, fetched = Resolved r -> status r = 401%N ->
        announcesJson r -> bodyJson r = Some v ->
        (web fetched).1 = WebApi.onUnauthorized pathname).
Proof.
  split_and!.
  - unfold mobile, MobileApi.request. destruct fetched as [r|e]; simpl.
    + destruct (status r =? 401)%N eqn:H401; simpl.
      * apply N.eqb_eq in H401. split; [by eauto|done].
      * apply N.eqb_neq in H401. split.
        -- destruct (_ || _); [by destruct (negb (ok r))|].
           destruct (if includes _ _ then _ else _); [|done].
           by destruct (negb (ok r)).
        -- intros (r' & [= <-] & Hr). done.
    + split; [done|]. by intros (r & [=] & _).
  - unfold mobile, MobileApi.request. destruct fetched as [r|e]; [|by left].
    destruct (status r =? 401)%N; [by right|]. simpl. left.
    destruct (_ || _); [by destruct (negb (ok r))|].
    destruct (if includes _ _ then _ else _); [|done].
    by destruct (negb (ok r)).
  - unfold web, WebApi.request. destruct fetched as [r|e]; [|done].
    destruct (match contentType r with Some _ => _ | None => _ end)
      as [result|]; [|done].
    destruct (negb (ok r)); [|done].
    destruct (status r =? 401)%N eqn:H401.
    + apply N.eqb_eq in H401. intros _. exists r.
      by destruct (WebApi.errorMessage result).
    + by destruct (WebApi.errorMessage result).
  - intros r -> H401 (ct & Hct & Hjson & _) Hbody.
    unfold web, WebApi.request. by rewrite Hct, Hjson, Hbody.
  - intros r v -> H401 (ct & Hct & Hjson & _) Hbody.
    unfold web, WebApi.request. rewrite Hct, Hjson, Hbody.
    assert (ok r = false) as -> by (unfold ok; by rewrite H401).
    simpl. rewrite H401. simpl. by destruct (WebApi.errorMessage v).
Qed.


End Clients.

Definition notFound : response :=
  {| status := 404;
     statusText := lit "Not Found";
     contentType := Some (lit "text/plain");
     bodyText := lit "no such analysis";
     bodyJson := None |}.


Example mobile_text_body :
  (MobileApi.request (lit "authToken") (lit "user") v8 (Resolved notFound)).2
  = Rejected (Error (lit "Network error: no such analysis")).
Proof. reflexivity. Qed.

(** A 401 answer announced as JSON with an unreadable body. *)
Example web_unauthorized_unreadable :
  WebApi.request v8 (lit "/dashboard")
    (Resolved {| status := 401; statusText := lit "Unauthorized";
                 contentType := Some (lit "application/json");
                 bodyText := lit "<html>"; bodyJson := None |})
  = ([], Rejected (Error (lit "Unexpected token"))).
Proof. reflexivity. Qed.

End ClientFacts.

Module HistoryLoadFacts.
Import Text JS Http TextFacts HttpFacts ClientFacts HistoryLoad.

Section Load.
Variable eng : engine.
Variables tokenKey userKey : jsstring.

(** Loading the history through the mobile client, from the settlement
    of [fetch] on. *)
Definition loadFrom (fetched : settled response)
  : list MobileApi.effect * outcome :=
  let (effects, settled) := MobileApi.request tokenKey userKey eng fetched in
  (effects, loadAnalysisHistory settled).

Lemma request_array (r : response) (l : list jsval) :
  ok r = true -> announcesJson r -> bodyJson r = Some (JArr l) ->
  MobileApi.request tokenKey userKey eng (Resolved r)
  = ([], Resolved (MobileApi.Data (JArr l))).
Proof.
  intros Hok (ct & Hct & Hjson & Hpdf & Hoct) Hbody. unfold MobileApi.request.
  assert ((status r =? 401)%N = false) as ->.
  { apply N.eqb_neq. intros H. unfold ok in Hok. by rewrite H in Hok. }
  rewrite Hct. cbv zeta. change (default [] (Some ct)) with ct.
  by rewrite Hpdf, Hoct, Hjson, Hbody, Hok.
Qed.

(** Loading the history never leaves the context loading.  An expired
    session (status 401) is silent: the stored session is cleared, the
    history is left as it is and no error is recorded.  Every failure
    leaves the history as it is and resolves with an empty list; it is
    recorded unless its message is ["UNAUTHORIZED"], and a recorded
    message starts with ["HTTP"] or with ["Network error: "].  A
    successful response that is a JSON array becomes the history. *)
Theorem loadFrom_outcomes (fetched : settled response) :
  isLoading (loadFrom fetched).2 = false
  /\ (forall r, fetched = Resolved r -> status r = 401%N ->
        loadFrom fetched
        = ([MobileApi.MultiRemove [tokenKey; userKey]],
           {| stored := None; error := None; isLoading := false;
              returned := JArr [] |}))
  /\ (forall e,
        (MobileApi.request tokenKey userKey eng fetched).2 = Rejected e ->
        stored (loadFrom fetched).2 = None
        /\ returned (loadFrom fetched).2 = JArr []
        /\ ((message e = lit "UNAUTHORIZED"
             /\ error (loadFrom fetched).2 = None)
            \/ (error (loadFrom fetched).2 = Some (message e)
                /\ (startsWith (lit "HTTP") (message e) = true
                    \/ startsWith (lit "Network error: ") (message e)
                       = true))))
  /\ (forall r l, fetched = Resolved r -> ok r = true ->
        announcesJson r -> bodyJson r = Some (JArr l) ->
        loadFrom fetched
        = ([], {| stored := Some (JArr l); error := None;
                  isLoading := false; returned := JArr l |})).
Proof.
  unfold loadFrom. split_and!.
  - destruct (MobileApi.request tokenKey userKey eng fetched) as [? [?|?]];
      done.
  - intros r -> Hr. by rewrite mobile_request_unauthorized.
  - intros e He.
    assert (classified (message e)) as Hclass.
    { apply mobile_rejected_rethrown in He as (e0 & ->).
      apply rethrow_classified. }
    destruct (MobileApi.request tokenKey userKey eng fetched)
      as [effects outcome]. cbn [snd] in He. subst outcome.
    cbn [snd loadAnalysisHistory stored returned error].
    split_and!; [done..|]. case_bool_decide as Hu; [by left|]. right.
    split; [done|]. by destruct Hclass as [?|[?|?]]; [|left|right].
  - intros r l -> Hok Hjson Hbody. by rewrite (request_array r l).
Qed.

End Load.

End HistoryLoadFacts.

Module FormFacts.
Import Text JS TextFacts TrimFacts ValidationFacts.

(** *** The analyze form of the web client *)

Section Form.
Variable typeErrorMessage : jsval -> jsstring.



End Form.





(** *** The chat import screen of the mobile client *)

Section Runtime.
Variable typeErrorMessage : jsstring.

Let run := ChatImportScreen.handleImport typeErrorMessage.

Lemma handleImport_effects (server : settled jsval)
    (st : ChatImportScreen.state) :
  (length (trim (ChatImportScreen.content st)) < 10
   /\ exists title text, (run server st).2 = [ChatImportScreen.Alert title text])
  \/ (10 <= length (trim (ChatImportScreen.content st))
      /\ ChatImportScreen.loading (run server st).1 = false
      /\ exists title text,
           (run server st).2
           = [ChatImportScreen.ImportChat
                (trim (ChatImportScreen.content st))
                (ChatImportScreen.formatType st)
                (or_else (JStr (trim (ChatImportScreen.userName st)))
                         JUndefined);
              ChatImportScreen.Alert title text]).
Proof.
  unfold run, ChatImportScreen.handleImport.
  destruct (Nat.lt_ge_cases (length (trim (ChatImportScreen.content st))) 10)
    as [Hshort|Hlong].
  - left. split; [done|].
    rewrite (ChatImportFacts.handleImport_guard st Hshort). by eexists _, _.
  - right. split; [done|].
    destruct (trim (ChatImportScreen.content st)) as [|c t] eqn:Ht;
      [simpl in Hlong; lia|].
    rewrite AnalyzeScreenFacts.truthy_cons. cbn [negb orb].
    rewrite (proj2 (Nat.ltb_ge _ _) Hlong).
    destruct server as [data|err]; [|split; [done|by eexists _, _]].
    destruct (getProp data _); (split; [done|by eexists _, _]).
Qed.

(** The chat import screen of the mobile client calls the server exactly
    when the trimmed content has at least 10 code units, whatever the
    server answers, and at most once.  The call carries the trimmed
    content, the chosen format and the trimmed user name, [undefined] for
    a blank one; it is followed by one alert, and the screen is never left
    loading. *)
Theorem handleImport_call (server : settled jsval)
    (st : ChatImportScreen.state) :
  (Exists (fun e => ChatImportScreen.isImportChat e = true) (run server st).2
   <-> 10 <= length (trim (ChatImportScreen.content st)))
  /\ (forall content format user,
        ChatImportScreen.ImportChat content format user ∈ (run server st).2 ->
        content = trim (ChatImportScreen.content st)
        /\ trim content = content /\ 10 <= length content
        /\ format = ChatImportScreen.formatType st
        /\ user = (if bool_decide (trim (ChatImportScreen.userName st) = [])
                   then JUndefined
                   else JStr (trim (ChatImportScreen.userName st))))
  /\ length (List.filter ChatImportScreen.isImportChat (run server st).2) <= 1
  /\ (10 <= length (trim (ChatImportScreen.content st)) ->
      ChatImportScreen.loading (run server st).1 = false).
Proof.
  destruct (handleImport_effects server st)
    as [[Hshort (title & text & Heff)]|(Hlong & Hload & title & text & Heff)].
  - rewrite Heff. split_and!.
    + split; [|lia]. intros H. apply Exists_cons in H as [H|H]; [done|].
      by apply Exists_nil in H.
    + intros c f u H. apply list_elem_of_singleton in H. discriminate.
    + simpl. lia.
    + lia.
  - rewrite Heff. split_and!.
    + split; [done|]. intros _. by left.
    + intros c f u H. apply elem_of_cons in H as [[= -> -> ->]|H].
      * split_and!; [done|apply trim_idemp|done|done|].
        unfold or_else, truthy. by case_bool_decide.
      * apply list_elem_of_singleton in H. discriminate.
    + simpl. lia.
    + done.
Qed.

End Runtime.

End FormFacts.

Module DashboardMoreFacts.
Import Text JS DashboardStats.

Lemma foldl_add_acc (acc : Z) (l : list Z) :
  foldl (fun a b => a + b)%Z acc l = (acc + foldl (fun a b => a + b)%Z 0 l)%Z.
Proof.
  revert acc. induction l as [|x l IH]; intros acc; simpl; [lia|].
  rewrite (IH (acc + x)%Z), (IH (0 + x)%Z). lia.
Qed.

Lemma total_cons (sentiment : jsstring) (count : Z) (d : distribution) :
  total ((sentiment, count) :: d) = (count + total d)%Z.
Proof. unfold total. simpl. by rewrite foldl_add_acc. Qed.

Lemma total_nonneg (d : distribution) :
  Forall (fun e => (0 <= e.2)%Z) d -> (0 <= total d)%Z.
Proof.
  induction 1 as [|[s c] d Hc _ IH]; [done|]. rewrite total_cons.
  simpl in Hc. lia.
Qed.

Lemma count_le_total (d : distribution) (sentiment : jsstring) (count : Z) :
  Forall (fun e => (0 <= e.2)%Z) d -> (sentiment, count) ∈ d ->
  (0 <= count <= total d)%Z.
Proof.
  induction 1 as [|[s c] d Hc Hall IH]; intros Hin.
  - by apply elem_of_nil in Hin.
  - rewrite total_cons. simpl in Hc. pose proof (total_nonneg d Hall).
    apply elem_of_cons in Hin as [[= -> ->]|Hin]; [lia|].
    specialize (IH Hin). lia.
Qed.

Lemma share_bounds (t count : Z) :
  (0 < t)%Z -> (0 <= count <= t)%Z ->
  (0 <= percentage t count)%Q /\ (percentage t count <= 100)%Q.
Proof.
  intros Ht [Hlo Hhi]. unfold percentage.
  rewrite (proj2 (Z.ltb_lt 0 t) Ht).
  assert (0 < inject_Z t)%Q as Hpos.
  { change 0%Q with (inject_Z 0). by rewrite <- Zlt_Qlt. }
  assert (0 <= inject_Z count / inject_Z t)%Q as Hnonneg.
  { apply Qle_shift_div_l; [done|]. rewrite Qmult_0_l.
    change 0%Q with (inject_Z 0). by rewrite <- Zle_Qle. }
  assert (inject_Z count / inject_Z t <= 1)%Q as Hone.
  { apply Qle_shift_div_r; [done|]. rewrite Qmult_1_l. by rewrite <- Zle_Qle. }
  split; lra.
Qed.

(** For a distribution of non-negative counts with at least one message,
    every bar of the dashboard reports a percentage between 0 and 100. *)
Theorem sentimentBars_bounded (d : distribution) :
  Forall (fun e => (0 <= e.2)%Z) d -> (0 < total d)%Z ->
  Forall (fun bar => (0 <= bar.2)%Q /\ (bar.2 <= 100)%Q) (sentimentBars d).
Proof.
  intros Hall Hpos. unfold sentimentBars.
  apply Forall_fmap, Forall_forall. intros [sentiment count] Hin. simpl.
  apply share_bounds; [done|]. by apply (count_le_total d sentiment).
Qed.

Lemma sentimentBars_bounded_witness :
  Forall (fun bar => (0 <= bar.2)%Q /\ (bar.2 <= 100)%Q)
    (sentimentBars [(lit "positive", 3%Z); (lit "negative", 1%Z)]).
Proof.
  apply (sentimentBars_bounded [(lit "positive", 3%Z); (lit "negative", 1%Z)]).
  - repeat constructor; simpl; lia.
  - reflexivity.
Defined.

End DashboardMoreFacts.

(* ===================================================================== *)
(** ** Mobile client: query strings *)
(* ===================================================================== *)

(** [ApiService.get] of [mental-health-app/src/services/api.js]. *)
Module MobileQuery.
Import Text JS.

(** [a.join(sep)] on strings. *)
Fixpoint join (sep : jsstring) (l : list jsstring) : jsstring :=
  match l with
  | [] => []
  | [x] => x
  | x :: r => x ++ sep ++ join sep r
  end.

(** [v !== undefined && v !== null] *)
Definition present (v : jsval) : bool :=
  match v with
  | JUndefined | JNull => false
  | _ => true
  end.

Section Encoding.

(** [encodeURIComponent] on strings; [None] is the URIError it raises on
    a lone surrogate. *)
Variable encodeURIComponent : jsstring -> option jsstring.

(** [`${encodeURIComponent(k)}=${encodeURIComponent(v)}`] *)
Definition pair (entry : jsstring * jsval) : option jsstring :=
  k ← encodeURIComponent entry.1;
  v ← encodeURIComponent (toString entry.2);
  Some (k ++ lit "=" ++ v).

(** The query of [get]: the parameters that are neither [undefined] nor
    [null], encoded and joined by ['&']. *)
Definition query (params : list (jsstring * jsval)) : option jsstring :=
  pairs ← mapM pair (List.filter (fun entry => present entry.2) params);
  Some (join (lit "&") pairs).

(** The URL [get] requests: [query ? `${endpoint}?${query}` : endpoint]. *)
Definition getUrl (endpoint : jsstring) (params : list (jsstring * jsval))
  : option jsstring :=
  q ← query params;
  Some (if truthy (JStr q) then endpoint ++ lit "?" ++ q else endpoint).

End Encoding.

End MobileQuery.

Module MobileQueryFacts.
Import Text JS MobileQuery.

Section Encoding.
Variable encodeURIComponent : jsstring -> option jsstring.

Lemma join_nonempty (sep : jsstring) (l : list jsstring) :
  l <> [] -> Forall (fun x => x <> []) l -> join sep l <> [].
Proof.
  intros Hne Hall. destruct Hall as [|x l Hx Hall]; [done|].
  simpl. destruct l; [done|]. by destruct x.
Qed.

Lemma pair_nonempty (entry : jsstring * jsval) (p : jsstring) :
  pair encodeURIComponent entry = Some p -> p <> [].
Proof.
  unfold pair. destruct (encodeURIComponent entry.1) as [k|]; [|done]. simpl.
  destruct (encodeURIComponent (toString entry.2)) as [v|]; [|done]. simpl.
  intros [= <-]. by destruct k.
Qed.

Lemma mapM_pairs (l : list (jsstring * jsval)) (ps : list jsstring) :
  mapM (pair encodeURIComponent) l = Some ps ->
  length ps = length l /\ Forall (fun x => x <> []) ps.
Proof.
  intros H. apply mapM_Some in H. split; [by apply Forall2_length in H|].
  induction H as [|e p l ps Hp _ IH]; constructor; [|done].
  by apply (pair_nonempty e).
Qed.

(** [get] requests the bare endpoint exactly when every parameter is
    [undefined] or [null]; otherwise it appends ['?'] and a non-empty
    query.  A parameter that is falsy but present, such as the offset 0,
    is sent. *)
Theorem getUrl_parameters (endpoint : jsstring)
    (params : list (jsstring * jsval)) (url : jsstring) :
  getUrl encodeURIComponent endpoint params = Some url ->
  (url = endpoint <-> Forall (fun entry => present entry.2 = false) params)
  /\ (Exists (fun entry => present entry.2 = true) params ->
      exists q, q <> [] /\ url = endpoint ++ lit "?" ++ q).
Proof.
  unfold getUrl, query.
  set (kept := List.filter (fun entry => present entry.2) params).
  assert (kept = [] <-> Forall (fun entry => present entry.2 = false) params)
    as Hkept.
  { subst kept. induction params as [|e params IH]; simpl.
    - split; [constructor|done].
    - destruct (present e.2) eqn:He.
      + split; [done|]. inversion 1; congruence.
      + rewrite IH. split; [by constructor|by inversion 1]. }
  destruct (mapM (pair encodeURIComponent) kept) as [ps|] eqn:Hps; [|done].
  simpl. intros [= <-]. apply mapM_pairs in Hps as [Hlen Hall].
  destruct kept as [|e kept'] eqn:Hk.
  - destruct ps; [|done]. simpl. split.
    + split; [intros _; by apply Hkept|done].
    + intros Hex. exfalso. apply Exists_exists in Hex as (e & He & Hp).
      pose proof (proj1 Hkept eq_refl) as Hnone.
      pose proof (proj1 (Forall_forall _ _) Hnone e He). simpl in *. congruence.
  - assert (join (lit "&") ps <> []) as Hq.
    { apply join_nonempty; [|done]. by destruct ps. }
    unfold truthy. rewrite bool_decide_eq_false_2 by done. simpl. split.
    + split.
      * intros Heq. exfalso. apply (f_equal length) in Heq.
        rewrite length_app in Heq. simpl in Heq. lia.
      * intros Hnone. by apply Hkept in Hnone.
    + intros _. by eexists.
Qed.

End Encoding.

(** An encoder for the examples: the unreserved strings stay as they
    are. *)
Definition plain (s : jsstring) : option jsstring := Some s.

Lemma getUrl_parameters_witness :
  exists q, q <> []
    /\ lit "/analysis/history?limit=50&offset=0"
       = lit "/analysis/history" ++ lit "?" ++ q.
Proof.
  apply (getUrl_parameters plain (lit "/analysis/history")
           [(lit "limit", JNum 50); (lit "offset", JNum 0)]
           (lit "/analysis/history?limit=50&offset=0")).
  - reflexivity.
  - left. reflexivity.
Defined.

Example getUrl_nullish :
  getUrl plain (lit "/blogs/") [(lit "category", JUndefined)]
  = Some (lit "/blogs/").
Proof. reflexivity. Qed.

End MobileQueryFacts.

Module ChatImportFormFacts.
Import Text JS TextFacts TrimFacts ValidationFacts.

(** The chat import form of the web client calls the server exactly when
    the content holds a character that is no white space, at most once,
    and sends the content as it was entered, not trimmed; an empty format
    and a blank user name go out as [null].  Without such a character it
    shows ["Please provide chat content"] and keeps the rest of the
    state. *)
Theorem handleAnalyze_call (notify : bool) (server : settled jsval)
    (st : ChatImport.state) :
  let out := ChatImport.handleAnalyze notify server st in
  (hasText (ChatImport.chatContent st) ->
   exists rest,
     out.2 = ChatImport.ImportChat (ChatImport.chatContent st)
               (if bool_decide (ChatImport.formatType st = [])
                then JNull else JStr (ChatImport.formatType st))
               (if bool_decide (trim (ChatImport.userName st) = [])
                then JNull else JStr (trim (ChatImport.userName st)))
             :: rest
     /\ (rest = [] \/ rest = [ChatImport.OnImportSuccess])
     /\ ChatImport.isAnalyzing out.1 = false)
  /\ (~ hasText (ChatImport.chatContent st) ->
      out.2 = []
      /\ ChatImport.error out.1 = Some (lit "Please provide chat content")
      /\ ChatImport.analysis out.1 = ChatImport.analysis st
      /\ ChatImport.chatContent out.1 = ChatImport.chatContent st).
Proof.
  intros out. subst out. unfold ChatImport.handleAnalyze.
  assert (forall s, ChatImport.orNull s
                    = if bool_decide (s = []) then JNull else JStr s) as Hnull.
  { intros s. unfold ChatImport.orNull, or_else, truthy.
    by case_bool_decide. }
  split.
  - intros Htext. apply trim_truthy in Htext. rewrite Htext. cbn [negb].
    rewrite !Hnull. destruct server as [r|err]; cbn [fst snd].
    + eexists. split; [reflexivity|]. split; [|done].
      destruct notify; [by right | by left].
    + eexists. split; [reflexivity|]. split; [by left|done].
  - intros Hblank.
    assert (truthy (JStr (trim (ChatImport.chatContent st))) = false) as ->.
    { destruct (truthy _) eqn:H; [|done]. by apply trim_truthy in H. }
    done.
Qed.

End ChatImportFormFacts.
